(** * CaliaDash: the inventory normaliser and its indicators (src/app.py)

    A shallow embedding of the data helpers of [app.py]:
    [_normalize_column], the normalising [load_inventory], [compute_insights]
    and [apply_priority_filter], followed by the properties of the
    specification that concern them.

    Modelling conventions.
    - Python [str] values are Rocq strings holding one code point per
      character, over the range U+0000..U+00FF (Latin-1, which covers the
      Portuguese labels and values of the spreadsheet).  On that range
      [str.lower], [str.strip], [str.split], [re.IGNORECASE] and the NFKD
      decomposition are finite tables, written out below.
    - A [float] is the rational it denotes; NaN is a separate value.  The
      rounding of float arithmetic is not modelled.
    - A pandas [DataFrame] is a list of column labels with a list of rows,
      each row holding its values under the labels.  A column statement of
      the source is the same statement here, on the column read off the
      rows; values meet rows by position, as they do in pandas when every
      column comes from the frame itself.
    - Exceptions are the [Err] results.  One refusal of pandas is left
      out, so that the model returns a frame wherever the program does:
      the [.str] accessor gives NaN on what is not text and never refuses
      a whole column for its dtype.  A label borne by several columns
      makes every read of it fail. *)

From Stdlib Require Import Strings.String Strings.Ascii Lists.List.
From Stdlib Require Import Arith.PeanoNat ZArith.ZArith QArith.QArith.
From Stdlib Require Import QArith.Qround Sorting.Sorted.
From Stdlib Require Import Bool.Bool micromega.Lia.
Import ListNotations.

Local Open Scope nat_scope.
Local Open Scope list_scope.
Local Open Scope string_scope.

(** ** Text *)

Module Text.

(** Code point of a character. *)
Definition ord (c : ascii) : nat := nat_of_ascii c.
Definition chr (n : nat) : ascii := ascii_of_nat n.

(** Tests on code points. *)
Definition code_is (k n : nat) : bool := Nat.eqb n k.
Definition between (lo hi n : nat) : bool := Nat.leb lo n && Nat.leb n hi.

(** [latin1 s] reads a literal written in this file (UTF-8 bytes) as the
    string of its code points: the two-byte sequences [C2 xx] and [C3 xx]
    become the code points U+0080..U+00FF, ASCII bytes stay. *)
Fixpoint latin1 (s : string) : string :=
  match s with
  | EmptyString => EmptyString
  | String b1 rest =>
      match rest with
      | String b2 rest' =>
          if code_is 194 (ord b1) then String b2 (latin1 rest')
          else if code_is 195 (ord b1) then String (chr (ord b2 + 64)) (latin1 rest')
          else String b1 (latin1 rest)
      | EmptyString => String b1 EmptyString
      end
  end.

(** [str.isspace] on one character: TAB..CR, FS..US, space, NEL, NBSP. *)
Definition isspace (c : ascii) : bool :=
  let n := ord c in
  between 9 13 n || between 28 32 n
  || code_is 133 n || code_is 160 n.

(** [str.lower] on one character: A..Z and the capital letters
    U+00C0..U+00DE (the multiplication sign U+00D7 apart) move by 32. *)
Definition lower_char (c : ascii) : ascii :=
  let n := ord c in
  if between 65 90 n
     || (between 192 222 n && negb (code_is 215 n))
  then chr (n + 32) else c.

Fixpoint lower (s : string) : string :=
  match s with
  | EmptyString => EmptyString
  | String c r => String (lower_char c) (lower r)
  end.

(** [str.lstrip()], [str.rstrip()], [str.strip()] with no argument. *)
Fixpoint lstrip (s : string) : string :=
  match s with
  | String c r => if isspace c then lstrip r else s
  | EmptyString => EmptyString
  end.

Fixpoint rstrip (s : string) : string :=
  match s with
  | EmptyString => EmptyString
  | String c r =>
      match rstrip r with
      | EmptyString => if isspace c then EmptyString else String c EmptyString
      | r' => String c r'
      end
  end.

Definition strip (s : string) : string := rstrip (lstrip s).

(** [s.replace(a, b)] for one-character [a] and [b]. *)
Fixpoint replace_char (a b : ascii) (s : string) : string :=
  match s with
  | EmptyString => EmptyString
  | String c r =>
      String (if Ascii.eqb c a then b else c) (replace_char a b r)
  end.

(** [s.split()]: the maximal runs of non-space characters, in order.
    [split_acc w s] carries the word being read, last character first. *)
Fixpoint rev_string (acc s : string) : string :=
  match s with
  | EmptyString => acc
  | String c r => rev_string (String c acc) r
  end.

Definition flush (w : string) (k : list string) : list string :=
  match w with
  | EmptyString => k
  | _ => rev_string EmptyString w :: k
  end.

Fixpoint split_acc (w : string) (s : string) : list string :=
  match s with
  | EmptyString => flush w []
  | String c r =>
      if isspace c then flush w (split_acc EmptyString r)
      else split_acc (String c w) r
  end.

Definition split (s : string) : list string := split_acc EmptyString s.

(** [sep.join(words)]. *)
Fixpoint join (sep : string) (words : list string) : string :=
  match words with
  | [] => EmptyString
  | [w] => w
  | w :: ws => w ++ sep ++ join sep ws
  end.

(** [re.search(pat, s, re.IGNORECASE)] for a pattern of plain characters:
    some position of [s] where every character of [pat] matches up to
    case. *)
Definition eqb_nocase (a b : ascii) : bool :=
  Ascii.eqb (lower_char a) (lower_char b).

Fixpoint match_here (pat s : string) : bool :=
  match pat, s with
  | EmptyString, _ => true
  | String _ _, EmptyString => false
  | String p pat', String c s' => eqb_nocase p c && match_here pat' s'
  end.

Fixpoint search_nocase (pat s : string) : bool :=
  match_here pat s
  || match s with
     | EmptyString => false
     | String _ s' => search_nocase pat s'
     end.

(** [unicodedata.normalize("NFKD", s).encode("ascii", "ignore").decode("ascii")]:
    every character is replaced by the ASCII characters of its
    compatibility decomposition; whatever is not ASCII is dropped. *)
Definition nfkd_ascii_char (c : ascii) : string :=
  let n := ord c in
  if Nat.ltb n 128 then String c EmptyString
  else if code_is 160 n || code_is 168 n || code_is 175 n || code_is 180 n || code_is 184 n
       then " "
  else if code_is 170 n then "a"
  else if code_is 178 n then "2"
  else if code_is 179 n then "3"
  else if code_is 185 n then "1"
  else if code_is 186 n then "o"
  else if code_is 188 n then "14"
  else if code_is 189 n then "12"
  else if code_is 190 n then "34"
  else if between 192 197 n then "A"
  else if code_is 199 n then "C"
  else if between 200 203 n then "E"
  else if between 204 207 n then "I"
  else if code_is 209 n then "N"
  else if between 210 214 n then "O"
  else if between 217 220 n then "U"
  else if code_is 221 n then "Y"
  else if between 224 229 n then "a"
  else if code_is 231 n then "c"
  else if between 232 235 n then "e"
  else if between 236 239 n then "i"
  else if code_is 241 n then "n"
  else if between 242 246 n then "o"
  else if between 249 252 n then "u"
  else if code_is 253 n || code_is 255 n then "y"
  else EmptyString.

Fixpoint nfkd_ascii (s : string) : string :=
  match s with
  | EmptyString => EmptyString
  | String c r => nfkd_ascii_char c ++ nfkd_ascii r
  end.

(** [re.sub(r"[^0-9a-z ]+", " ", s)]: every maximal run of characters
    outside the class becomes one space.  [in_run] tells that the
    previous character was already replaced. *)
Definition is_label_char (c : ascii) : bool :=
  let n := ord c in
  between 48 57 n || between 97 122 n || code_is 32 n.

Fixpoint sub_runs (in_run : bool) (s : string) : string :=
  match s with
  | EmptyString => EmptyString
  | String c r =>
      if is_label_char c then String c (sub_runs false r)
      else if in_run then sub_runs true r
      else String " " (sub_runs true r)
  end.

End Text.

Import Text.

(** ** Column labels *)

(** [_normalize_column]: Excel column names to snake_case ascii. *)
Definition _normalize_column (column : string) : string :=
  let base :=
    lower (strip (replace_char (chr 10) " " (nfkd_ascii column))) in
  let base := sub_runs false base in
  join "_" (split base).

(** The alias table of [load_inventory]; a label that is not a key is left
    as it is by [DataFrame.rename]. *)
Definition rename_map : list (string * string) :=
  [ ("nome", "nome");
    ("status", "status");
    ("grupo", "grupo");
    ("usuario", "usuario");
    ("numero_de_inventario", "numero_inventario");
    ("tipo_do_item", "tipo_item");
    ("categoria", "categoria");
    ("valor_medio_unitario", "valor_unitario");
    ("depreciacao_anual_mercado", "perc_depreciacao");
    ("vida_util_anos_mercado", "vida_util_anos");
    ("depreciacao_anual_unitaria_r", "depreciacao_unitaria") ].

Fixpoint lookup {A : Type} (k : string) (m : list (string * A)) : option A :=
  match m with
  | [] => None
  | (k', v) :: m' => if String.eqb k k' then Some v else lookup k m'
  end.

Definition renamed (m : list (string * string)) (label : string) : string :=
  match lookup label m with
  | Some label' => label'
  | None => label
  end.

(** ** Exceptions *)

Inductive error : Type :=
| KeyError (label : string)
| ValueError
| TypeError
| AttributeError.

Inductive result (A : Type) : Type :=
| Ok (a : A)
| Err (e : error).

Arguments Ok {A} a.
Arguments Err {A} e.

Definition bind {A B : Type} (x : result A) (f : A -> result B) : result B :=
  match x with
  | Ok a => f a
  | Err e => Err e
  end.

Notation "x <- e ;; k" := (bind e (fun x => k))
  (at level 61, e at next level, right associativity).

Fixpoint mapM {A B : Type} (f : A -> result B) (l : list A) : result (list B) :=
  match l with
  | [] => Ok []
  | a :: l' => b <- f a ;; bs <- mapM f l' ;; Ok (b :: bs)
  end.

(** The value of a computation that did not raise. *)
Definition value {A : Type} (default : A) (x : result A) : A :=
  match x with
  | Ok a => a
  | Err _ => default
  end.

(** ** Frames *)

(** A cell of a frame: missing (NaN / None), text, a float, a boolean. *)
Inductive cell : Type :=
| NA
| Str (s : string)
| Num (q : Q)
| Bln (b : bool).

Definition Series : Type := list cell.

(** One record, as [DataFrame.apply(..., axis=1)] hands it over: the
    values under their labels, in column order. *)
Definition Row : Type := list (string * cell).

Record DataFrame : Type := {
  columns : list string;
  rows : list Row
}.

Definition len (df : DataFrame) : nat := length (rows df).

Definition has_label (c : string) (labels : list string) : bool :=
  existsb (String.eqb c) labels.

Definition count_label (c : string) (labels : list string) : nat :=
  length (filter (String.eqb c) labels).

(** [row[c]]. *)
Fixpoint row_get (r : Row) (c : string) : cell :=
  match r with
  | [] => NA
  | (k, v) :: r' => if String.eqb c k then v else row_get r' c
  end.

(** [row[c] = v]: every entry labelled [c] takes the value; a new label
    goes last. *)
Fixpoint row_replace (c : string) (v : cell) (r : Row) : Row :=
  match r with
  | [] => []
  | (k, w) :: r' =>
      (k, if String.eqb c k then v else w) :: row_replace c v r'
  end.

Definition row_set (c : string) (v : cell) (r : Row) : Row :=
  if has_label c (map fst r) then row_replace c v r
  else (r ++ [(c, v)])%list.

(** [df.get(c)]: the column, or [None] when no column has the label. *)
Definition get (df : DataFrame) (c : string) : option Series :=
  if has_label c (columns df)
  then Some (map (fun r => row_get r c) (rows df))
  else None.

(** [df[c]] read as one column.  An absent label raises [KeyError]; a
    label borne by several columns selects a frame, on which the column
    operations of this program raise. *)
Definition getitem (df : DataFrame) (c : string) : result Series :=
  match count_label c (columns df) with
  | 0 => Err (KeyError c)
  | 1 => Ok (map (fun r => row_get r c) (rows df))
  | _ => Err ValueError
  end.

(** [df[c] = s]: values meet rows by position; a row the series does
    not reach gets NaN. *)
Fixpoint assign (c : string) (s : Series) (rs : list Row) : list Row :=
  match rs with
  | [] => []
  | r :: rs' =>
      match s with
      | v :: s' => row_set c v r :: assign c s' rs'
      | [] => row_set c NA r :: assign c [] rs'
      end
  end.

Definition setitem (df : DataFrame) (c : string) (s : Series) : DataFrame :=
  {| columns := if has_label c (columns df) then columns df
                else (columns df ++ [c])%list;
     rows := assign c s (rows df) |}.

(** A cell of a boolean mask. *)
Definition truth (m : cell) : bool :=
  match m with
  | Bln b => b
  | _ => false
  end.

(** [df.loc[mask, c] = v] for an existing column [c]. *)
Fixpoint loc_assign (c : string) (v : cell) (mask : Series) (rs : list Row)
  : list Row :=
  match rs, mask with
  | r :: rs', m :: mask' =>
      (if truth m then row_set c v r else r) :: loc_assign c v mask' rs'
  | _, _ => rs
  end.

Definition loc_setitem (df : DataFrame) (mask : Series) (c : string) (v : cell)
  : DataFrame :=
  {| columns := columns df; rows := loc_assign c v mask (rows df) |}.

(** [df.rename(columns=f)]. *)
Definition rename (f : string -> string) (df : DataFrame) : DataFrame :=
  {| columns := map f (columns df);
     rows := map (map (fun kv => (f (fst kv), snd kv))) (rows df) |}.

(** [df[mask]]: the rows whose mask is true. *)
Fixpoint select {A : Type} (mask : Series) (l : list A) : list A :=
  match l, mask with
  | a :: l', m :: mask' =>
      if truth m then a :: select mask' l' else select mask' l'
  | _, _ => []
  end.

(** ** Column operations *)

Module Col.

(** [s.str.strip()]: what is not text becomes NaN. *)
Definition strip_cell (v : cell) : cell :=
  match v with
  | Str t => Str (strip t)
  | _ => NA
  end.

Definition str_strip (s : Series) : Series := map strip_cell s.

(** [s.fillna(v)]. *)
Definition fillna_cell (v w : cell) : cell :=
  match w with
  | NA => v
  | _ => w
  end.

Definition fillna (v : cell) (s : Series) : Series := map (fillna_cell v) s.

(** [s.str.contains(pat, case=False, na=False)] for a pattern of plain
    characters. *)
Definition str_contains_cell (pat : string) (v : cell) : cell :=
  match v with
  | Str t => Bln (search_nocase pat t)
  | _ => Bln false
  end.

Definition str_contains (pat : string) (s : Series) : Series :=
  map (str_contains_cell pat) s.

(** [s.str.len()]. *)
Definition len_cell (v : cell) : cell :=
  match v with
  | Str t => Num (inject_Z (Z.of_nat (String.length t)))
  | _ => NA
  end.

Definition str_len (s : Series) : Series := map len_cell s.

(** [s <= x] and [s > x] against a number; NaN compares false. *)
Definition le_cell (x : Q) (v : cell) : cell :=
  match v with
  | Num q => Bln (Qle_bool q x)
  | _ => Bln false
  end.

Definition gt_cell (x : Q) (v : cell) : cell :=
  match v with
  | Num q => Bln (negb (Qle_bool q x))
  | _ => Bln false
  end.

Definition le (x : Q) (s : Series) : Series := map (le_cell x) s.
Definition gt (x : Q) (s : Series) : Series := map (gt_cell x) s.

(** [~s] and [s1 & s2] on boolean columns. *)
Definition inv_cell (v : cell) : cell := Bln (negb (truth v)).
Definition and_cell (v w : cell) : cell := Bln (truth v && truth w).

Definition inv (s : Series) : Series := map inv_cell s.

Definition and (s1 s2 : Series) : Series :=
  map (fun vw => and_cell (fst vw) (snd vw)) (combine s1 s2).

(** [s == x] against text. *)
Definition eq_str_cell (x : string) (v : cell) : cell :=
  match v with
  | Str t => Bln (String.eqb t x)
  | _ => Bln false
  end.

Definition eq_str (x : string) (s : Series) : Series := map (eq_str_cell x) s.

End Col.

(** ** The normaliser *)

Definition MAC_REFERENCE_DEPRECIATION : Q := 2145.
Definition LICENSE_REFERENCE_DEPRECIATION : Q := 1200.
Definition LOW_COST_THRESHOLD : Q := 800.

Definition SEM_INVENTARIO : string := latin1 "Sem inventário".
Definition PREMIUM : string := "Premium controlado".
Definition ESSENCIAL : string := "Essencial".
Definition NAO_ESSENCIAL : string := latin1 "Não essencial".
Definition INVENTARIO_COMPLETO : string := latin1 "Inventário completo".

Definition essential_types : list string :=
  ["computador"; "telefone"; "monitor"; "impressora"].

(** [classify_priority(row)], the function local to [load_inventory].
    [.lower()] exists on text only. *)
Definition classify_priority (row : Row) : result cell :=
  if truth (row_get row "is_mac") || truth (row_get row "is_license")
  then Ok (Str PREMIUM)
  else
    match row_get row "tipo_item" with
    | Str t =>
        if has_label (lower t) essential_types
        then Ok (Str ESSENCIAL)
        else Ok (Str NAO_ESSENCIAL)
    | _ => Err AttributeError
    end.

Section Normaliser.

(** Python's [float(text)] and [str(number)] are taken as they come:
    [float_of_str] answers [None] where [float] raises [ValueError]. *)
Variable float_of_str : string -> option Q.
Variable str_of_float : Q -> string.

(** [s.astype(float)]. *)
Definition to_float (v : cell) : result cell :=
  match v with
  | NA => Ok NA
  | Num q => Ok (Num q)
  | Bln b => Ok (Num (if b then 1 else 0))
  | Str t =>
      match float_of_str t with
      | Some q => Ok (Num q)
      | None => Err ValueError
      end
  end.

Definition astype_float (s : Series) : result Series := mapM to_float s.

(** [s.astype(str)]. *)
Definition to_str (v : cell) : cell :=
  match v with
  | NA => Str "nan"
  | Str t => Str t
  | Num q => Str (str_of_float q)
  | Bln b => Str (if b then "True" else "False")
  end.

Definition astype_str (s : Series) : Series := map to_str s.

(** [load_inventory], lines 52-98: of the three definitions the file
    gives under this name, the one that normalises the sheet.  [raw] is
    the frame [pd.read_excel(path)] returned.
    [df.apply(classify_priority, axis=1)] is the column of the results,
    row by row. *)
Definition load_inventory (raw : DataFrame) : result DataFrame :=
  let df := rename _normalize_column raw in
  let df := rename (renamed rename_map) df in
  s <- getitem df "valor_unitario" ;;
  s <- astype_float s ;;
  let df := setitem df "valor_unitario" s in
  s <- getitem df "depreciacao_unitaria" ;;
  s <- astype_float s ;;
  let df := setitem df "depreciacao_unitaria" s in
  s <- getitem df "categoria" ;;
  let df := setitem df "categoria" (Col.str_strip s) in
  s <- getitem df "numero_inventario" ;;
  let df := setitem df "numero_inventario"
              (Col.str_strip (astype_str (Col.fillna (Str SEM_INVENTARIO) s))) in
  s <- getitem df "usuario" ;;
  let df := setitem df "usuario"
              (Col.str_strip (astype_str (Col.fillna (Str "") s))) in
  s <- getitem df "nome" ;;
  let df := setitem df "is_mac" (Col.str_contains "mac" s) in
  s <- getitem df "tipo_item" ;;
  let df := setitem df "is_license" (Col.str_contains "licenca" s) in
  s <- getitem df "valor_unitario" ;;
  let df := setitem df "is_low_cost" (Col.le LOW_COST_THRESHOLD s) in
  s <- getitem df "usuario" ;;
  let df := setitem df "tem_usuario" (Col.gt 0 (Col.str_len s)) in
  s <- getitem df "numero_inventario" ;;
  let df := setitem df "tem_inventario"
              (Col.inv (Col.str_contains "sem" s)) in
  s1 <- getitem df "tem_usuario" ;;
  s2 <- getitem df "tem_inventario" ;;
  let df := setitem df "rastreados" (Col.and s1 s2) in
  s <- getitem df "depreciacao_unitaria" ;;
  let df := setitem df "dep_referencia" s in
  m <- getitem df "is_mac" ;;
  let df := loc_setitem df m "dep_referencia" (Num MAC_REFERENCE_DEPRECIATION) in
  m <- getitem df "is_license" ;;
  let df := loc_setitem df m "dep_referencia"
              (Num LICENSE_REFERENCE_DEPRECIATION) in
  p <- mapM classify_priority (rows df) ;;
  Ok (setitem df "prioridade" p).

(** The same statements on one record: what [load_inventory] does to
    each row of the relabelled sheet. *)
Definition step (c : string) (g : Row -> cell) (r : Row) : Row :=
  row_set c (g r) r.

Definition step_where (m c : string) (v : cell) (r : Row) : Row :=
  if truth (row_get r m) then row_set c v r else r.

Definition normalize_row (r : Row) : result Row :=
  v <- to_float (row_get r "valor_unitario") ;;
  let r := row_set "valor_unitario" v r in
  v <- to_float (row_get r "depreciacao_unitaria") ;;
  let r := row_set "depreciacao_unitaria" v r in
  let r := step "categoria"
             (fun r => Col.strip_cell (row_get r "categoria")) r in
  let r := step "numero_inventario"
             (fun r => Col.strip_cell (to_str
                (Col.fillna_cell (Str SEM_INVENTARIO)
                   (row_get r "numero_inventario")))) r in
  let r := step "usuario"
             (fun r => Col.strip_cell (to_str
                (Col.fillna_cell (Str "") (row_get r "usuario")))) r in
  let r := step "is_mac"
             (fun r => Col.str_contains_cell "mac" (row_get r "nome")) r in
  let r := step "is_license"
             (fun r => Col.str_contains_cell "licenca" (row_get r "tipo_item")) r in
  let r := step "is_low_cost"
             (fun r => Col.le_cell LOW_COST_THRESHOLD
                (row_get r "valor_unitario")) r in
  let r := step "tem_usuario"
             (fun r => Col.gt_cell 0 (Col.len_cell (row_get r "usuario"))) r in
  let r := step "tem_inventario"
             (fun r => Col.inv_cell
                (Col.str_contains_cell "sem" (row_get r "numero_inventario"))) r in
  let r := step "rastreados"
             (fun r => Col.and_cell (row_get r "tem_usuario")
                (row_get r "tem_inventario")) r in
  let r := step "dep_referencia"
             (fun r => row_get r "depreciacao_unitaria") r in
  let r := step_where "is_mac" "dep_referencia"
             (Num MAC_REFERENCE_DEPRECIATION) r in
  let r := step_where "is_license" "dep_referencia"
             (Num LICENSE_REFERENCE_DEPRECIATION) r in
  p <- classify_priority r ;;
  Ok (row_set "prioridade" p r).

(** The frame after the two [rename] calls. *)
Definition relabel (raw : DataFrame) : DataFrame :=
  rename (renamed rename_map) (rename _normalize_column raw).

End Normaliser.

(** ** The indicators *)

(** A float that may be NaN, for the means. *)
Inductive float : Type :=
| Fin (q : Q)
| NaN.

Definition fmul (x : float) (k : Q) : float :=
  match x with
  | Fin q => Fin (q * k)
  | NaN => NaN
  end.

Module Agg.

(** [s.sum()]: NaN is skipped, booleans count 0 and 1, text does not add
    to a number. *)
Fixpoint sum (s : Series) : result Q :=
  match s with
  | [] => Ok 0%Q
  | v :: s' =>
      t <- sum s' ;;
      match v with
      | NA => Ok t
      | Num q => Ok (q + t)%Q
      | Bln b => Ok ((if b then 1 else 0) + t)%Q
      | Str _ => Err TypeError
      end
  end.

(** A column used as a mask holds booleans. *)
Definition as_mask (s : Series) : result (list bool) :=
  mapM (fun v => match v with Bln b => Ok b | _ => Err TypeError end) s.

Definition count_true (m : list bool) : nat := length (filter (fun b => b) m).

Definition of_nat (n : nat) : Q := inject_Z (Z.of_nat n).

(** [mask.mean()]: NaN on the empty column. *)
Definition mean (m : list bool) : float :=
  match m with
  | [] => NaN
  | _ => Fin (of_nat (count_true m) / of_nat (length m))
  end.

(** [s.value_counts().get(x, 0)] for text [x]. *)
Definition count_str (x : string) (s : Series) : nat :=
  length (filter (fun v => truth (Col.eq_str_cell x v)) s).

(** [df.groupby(key)[val].sum()]: one entry per key, keys ascending,
    rows with a missing key left out.  Keys are text. *)
Fixpoint add_to_group (k : string) (q : Q) (g : list (string * Q))
  : list (string * Q) :=
  match g with
  | [] => [(k, q)]
  | (k', t) :: g' =>
      if String.eqb k k' then (k', (t + q)%Q) :: g'
      else if String.ltb k k' then (k, q) :: g
      else (k', t) :: add_to_group k q g'
  end.

Fixpoint groupby_sum (keys vals : Series) : result (list (string * Q)) :=
  match keys, vals with
  | k :: keys', v :: vals' =>
      g <- groupby_sum keys' vals' ;;
      match k with
      | NA => Ok g
      | Str t => q <- sum [v] ;; Ok (add_to_group t q g)
      | _ => Err TypeError
      end
  | _, _ => Ok []
  end.

(** [s.sort_values(ascending=False)], by insertion; entries of equal
    value keep their order. *)
Fixpoint insert_desc (e : string * Q) (l : list (string * Q))
  : list (string * Q) :=
  match l with
  | [] => [e]
  | e' :: l' =>
      if Qle_bool (snd e') (snd e) then e :: l
      else e' :: insert_desc e l'
  end.

Definition sort_desc (l : list (string * Q)) : list (string * Q) :=
  fold_right insert_desc [] l.

Definition total (g : list (string * Q)) : Q :=
  fold_right (fun e t => (snd e + t)%Q) 0%Q g.

End Agg.

Record Insights : Type := {
  total_dep : Q;
  patrimonio_total : Q;
  avg_dep : Q;
  mac_dep : Q;
  license_dep : Q;
  mac_count : nat;
  license_count : nat;
  tracked_pct : float;
  tracked_count : nat;
  low_cost_dep : Q;
  low_cost_count : nat;
  low_cost_pct : float;
  sem_uso_pct : Q;
  sem_uso_count : nat;
  centros : list (string * Q);
  top_centros_share : Q;
  top_centros_names : string;
  total_items : nat
}.

(** [a or b] where [a] came from [df.get]: [None] is falsy; the truth
    value of a column is ambiguous and raises. *)
Definition or_else (a : option Series) (b : result Series) : result Series :=
  match a with
  | None => b
  | Some _ => Err ValueError
  end.

Definition DEP_UNITARIA_LABEL : string :=
  latin1 "Depreciação anual unitária (R$)".
Definition DEP_MERCADO_LABEL : string := "Depreciacao anual_% (mercado)".

(** [x or 1] on a count and on a float. *)
Definition nat_or_1 (n : nat) : nat := match n with 0 => 1 | _ => n end.
Definition q_or_1 (q : Q) : Q := if Qeq_bool q 0 then 1%Q else q.

Definition compute_insights (df : DataFrame) : result Insights :=
  let total_items := nat_or_1 (len df) in
  s <- or_else (get df DEP_UNITARIA_LABEL)
         (or_else (get df DEP_MERCADO_LABEL)
            (Ok (repeat (Num 0) (len df)))) ;;
  total_dep <- Agg.sum s ;;
  valor <- getitem df "valor_unitario" ;;
  patr_total <- Agg.sum valor ;;
  let avg_dep := (total_dep / Agg.of_nat total_items)%Q in
  mac_mask <- getitem df "is_mac" ;;
  lic_mask <- getitem df "is_license" ;;
  low_mask <- getitem df "is_low_cost" ;;
  tracked_mask <- getitem df "rastreados" ;;
  status <- getitem df "status" ;;
  let sem_uso := Agg.count_str "Sem Uso" status in
  grupo <- getitem df "grupo" ;;
  valor <- getitem df "valor_unitario" ;;
  groups <- Agg.groupby_sum grupo valor ;;
  let centros := Agg.sort_desc groups in
  let centros_total := q_or_1 (Agg.total centros) in
  let top_centros := firstn 2 centros in
  dep <- getitem df "dep_referencia" ;;
  mac_dep <- Agg.sum (select mac_mask dep) ;;
  license_dep <- Agg.sum (select lic_mask dep) ;;
  mac_b <- Agg.as_mask mac_mask ;;
  lic_b <- Agg.as_mask lic_mask ;;
  tracked_b <- Agg.as_mask tracked_mask ;;
  low_cost_dep <- Agg.sum (select low_mask dep) ;;
  low_b <- Agg.as_mask low_mask ;;
  Ok {| total_dep := total_dep;
        patrimonio_total := patr_total;
        avg_dep := avg_dep;
        mac_dep := mac_dep;
        license_dep := license_dep;
        mac_count := Agg.count_true mac_b;
        license_count := Agg.count_true lic_b;
        tracked_pct := fmul (Agg.mean tracked_b) 100;
        tracked_count := Agg.count_true tracked_b;
        low_cost_dep := low_cost_dep;
        low_cost_count := Agg.count_true low_b;
        low_cost_pct := fmul (Agg.mean low_b) 100;
        sem_uso_pct := (Agg.of_nat sem_uso / Agg.of_nat total_items * 100)%Q;
        sem_uso_count := sem_uso;
        centros := centros;
        top_centros_share :=
          match top_centros with
          | [] => 0%Q
          | _ => (Agg.total top_centros / centros_total * 100)%Q
          end;
        top_centros_names := join ", " (map fst top_centros);
        total_items := len df |}.

(** ** The priority filter *)

(** [selection not in df["prioridade"].unique()]: no value of the
    column equals the selection. *)
Definition not_in_unique (selection : string) (s : Series) : bool :=
  negb (existsb (fun v => truth (Col.eq_str_cell selection v)) s).

Definition apply_priority_filter (df : DataFrame) (selection : string)
  : result DataFrame :=
  if String.eqb selection INVENTARIO_COMPLETO then Ok df
  else
    p <- getitem df "prioridade" ;;
    if not_in_unique selection p then Ok df
    else
      p <- getitem df "prioridade" ;;
      Ok {| columns := columns df;
            rows := select (Col.eq_str selection p) (rows df) |}.

(** ** The data of the charts and of the reading *)


Definition py_int (x : Q) : Z :=
  if Qle_bool 0 x then Qfloor x else Qceiling x.

Definition PENDENCIAS : string := latin1 "Pendências".


(** [tracking_ratio_chart], lines 324-332: the frame [data] handed to
    the pie, slice by slice. *)
Definition tracking_ratio_data (df : DataFrame) : result (list (string * Z)) :=
  r <- getitem df "rastreados" ;;
  t <- Agg.sum r ;;
  let tracked := py_int t in
  let pending := Z.max (Z.of_nat (len df) - tracked) 0 in
  if Nat.eqb (len df) 0 then Ok [ ("Sem dados", 1%Z) ]
  else Ok [ ("Rastreabilidade completa", tracked); (PENDENCIAS, pending) ].

(** [df.empty]: no rows or no columns. *)
Definition empty (df : DataFrame) : bool :=
  Nat.eqb (len df) 0 || Nat.eqb (length (columns df)) 0.

(** [centro_custo_chart], lines 355-359: the ranking handed to the bar
    chart. *)
Definition centro_custo_data (df : DataFrame) : result (list (string * Q)) :=
  if empty df then Ok []
  else
    grupo <- getitem df "grupo" ;;
    valor <- getitem df "valor_unitario" ;;
    groups <- Agg.groupby_sum grupo valor ;;
    Ok (firstn 6 (Agg.sort_desc groups)).

(** [section_high_value], lines 507-508: the two shares of the reading;
    a total of zero is falsy. *)
Definition share_of (part total : Q) : Q :=
  if Qeq_bool total 0 then 0%Q else (part / total * 100)%Q.

Definition mac_share (view_kpis : Insights) : Q :=
  share_of (mac_dep view_kpis) (total_dep view_kpis).

Definition lic_share (view_kpis : Insights) : Q :=
  share_of (license_dep view_kpis) (total_dep view_kpis).

(** [render], lines 583-595: the indicators of the whole frame, the
    filtered frame and its indicators, for a frame [df] already loaded. *)
Definition render_data (df : DataFrame) (selection : string)
  : result (Insights * DataFrame * Insights) :=
  global_kpis <- compute_insights df ;;
  filtered_df <- apply_priority_filter df selection ;;
  view_kpis <- compute_insights filtered_df ;;
  Ok (global_kpis, filtered_df, view_kpis).

(** ** A runnable [float] and [str]

    Plain decimal numerals, for the examples: [float_of_decimal] reads
    an optional sign, digits and an optional fraction, as [float] does;
    [str_of_decimal] prints the decimal expansion, [1023.0] or [12.25],
    as [str] does for such floats. *)

Fixpoint read_digits (s : string) (acc : Z) (n : nat) : Z * nat * string :=
  match s with
  | String c r =>
      if between 48 57 (ord c)
      then read_digits r (10 * acc + Z.of_nat (ord c - 48))%Z (S n)
      else (acc, n, s)
  | EmptyString => (acc, n, s)
  end.

Definition float_of_decimal (s : string) : option Q :=
  let s := strip s in
  let '(sign, s) :=
    match s with
    | String "-" r => ((-1)%Z, r)
    | String "+" r => (1%Z, r)
    | _ => (1%Z, s)
    end in
  let '(i, n, rest) := read_digits s 0%Z 0 in
  match n, rest with
  | 0, _ => None
  | _, EmptyString => Some (inject_Z (sign * i))
  | _, String "." r =>
      let '(f, k, rest') := read_digits r 0%Z 0 in
      match rest' with
      | EmptyString =>
          Some (Qmake (sign * (i * 10 ^ Z.of_nat k + f))
                      (Z.to_pos (10 ^ Z.of_nat k)))
      | _ => None
      end
  | _, _ => None
  end.

Fixpoint digits_of (fuel : nat) (n : N) (acc : string) : string :=
  match fuel with
  | 0 => acc
  | S fuel' =>
      let d := String (chr (48 + N.to_nat (N.modulo n 10))) acc in
      if N.ltb n 10 then d else digits_of fuel' (N.div n 10) d
  end.

Fixpoint fraction_digits (fuel : nat) (r d : N) : string :=
  match fuel with
  | 0 => ""
  | S fuel' =>
      if N.eqb r 0 then ""
      else String (chr (48 + N.to_nat (N.div (10 * r) d)))
             (fraction_digits fuel' (N.modulo (10 * r) d) d)
  end.

Definition str_of_decimal (q : Q) : string :=
  let n := Z.abs_N (Qnum q) in
  let d := Npos (Qden q) in
  let whole := N.div n d in
  let fraction := fraction_digits 17 (N.modulo n d) d in
  (if (Qnum q <? 0)%Z then "-" else "")
  ++ digits_of (S (N.to_nat (N.log2 whole))) whole ""
  ++ "."
  ++ match fraction with
     | EmptyString => "0"
     | _ => fraction
     end.

(** ** Words of a label *)

Module Label.

(** The characters of a word of a label: digits and lower-case letters. *)
Definition is_word_char (c : ascii) : bool :=
  let n := ord c in between 48 57 n || between 97 122 n.

(** The characters of a label: those, and the underscore. *)
Definition is_out_char (c : ascii) : bool :=
  is_word_char c || Ascii.eqb c "_".

Fixpoint all_chars (p : ascii -> bool) (s : string) : bool :=
  match s with
  | EmptyString => true
  | String c r => p c && all_chars p r
  end.

Definition word_ok (w : string) : Prop :=
  w <> EmptyString /\ all_chars is_word_char w = true.

End Label.

(** The record bears the selected priority. *)
Definition priority_is (selection : string) (r : Row) : bool :=
  truth (Col.eq_str_cell selection (row_get r "prioridade")).

(** ** Sample sheets *)

Definition sheet_labels : list string :=
  [ latin1 "Nome"; "Status"; "Grupo"; latin1 "Usuário";
    latin1 "Número de inventário"; "Tipo do item"; "Categoria";
    latin1 "Valor médio unitário"; latin1 "Depreciação anual_% (mercado)";
    latin1 "Vida útil_anos (mercado)";
    latin1 "Depreciação anual unitária (R$)" ].

Definition sheet (records : list (list cell)) : DataFrame :=
  {| columns := sheet_labels; rows := map (combine sheet_labels) records |}.

(** The labels of a normalised sheet. *)
Definition canonical_columns : list string :=
  [ "nome"; "status"; "grupo"; "usuario"; "numero_inventario"; "tipo_item";
    "categoria"; "valor_unitario"; "perc_depreciacao"; "vida_util_anos";
    "depreciacao_unitaria"; "is_mac"; "is_license"; "is_low_cost";
    "tem_usuario"; "tem_inventario"; "rastreados"; "dep_referencia";
    "prioridade" ].

Definition frame_of (x : result DataFrame) : DataFrame :=
  value {| columns := []; rows := [] |} x.

Definition load_decimal : DataFrame -> result DataFrame :=
  load_inventory float_of_decimal str_of_decimal.

(** A laptop with an owner and a code, and a mouse with neither. *)
Definition sample_raw : DataFrame :=
  sheet [ [Str "MacBook Pro"; Str "Em uso"; Str "TI"; Str "Ana "; Num 1023;
           Str "Computador"; Str " Notebooks"; Str "500"; Num 20; Num 5;
           Num 300];
          [Str "Mouse"; Str "Sem Uso"; Str "RH"; NA; NA;
           Str "Periferico"; Str "Acessorios"; Num 50; Num 20; Num 5;
           Num 10] ].

Definition sample_df : DataFrame :=
  Eval vm_compute in frame_of (load_decimal sample_raw).

Definition sample_row : Row := Eval vm_compute in hd [] (rows sample_df).

(** A desktop entered under the English word. *)
Definition computer_raw : DataFrame :=
  sheet [ [Str "Dell Optiplex"; Str "Em uso"; Str "TI"; Str "Bia"; Str "INV-7";
           Str "computer"; Str "Desktops"; Num 3000; Num 20; Num 5; Num 600] ].

Definition computer_row : Row :=
  Eval vm_compute in hd [] (rows (frame_of (load_decimal computer_raw))).

(** An office licence, spelt with the cedilla. *)
Definition licenca_raw : DataFrame :=
  sheet [ [Str "Office 365"; Str "Em uso"; Str "TI"; Str "Bia"; Str "INV-9";
           Str (latin1 "Licença"); Str "Software"; Num 900; Num 20; Num 5;
           Num 180] ].

Definition licenca_row : Row :=
  Eval vm_compute in hd [] (rows (frame_of (load_decimal licenca_raw))).

(** Two records whose inventory code is there but blank. *)
Definition blank_code_raw : DataFrame :=
  sheet [ [Str "Teclado"; Str "Em uso"; Str "TI"; Str "Bia"; Str "   ";
           Str "Periferico"; Str "Acessorios"; Num 120; Num 20; Num 5; Num 24];
          [Str "Webcam"; Str "Novo"; Str "RH"; Str "Caio"; Str "";
           Str "Periferico"; Str "Acessorios"; Num 200; Num 20; Num 5; Num 40] ].

Definition blank_code_df : DataFrame :=
  Eval vm_compute in frame_of (load_decimal blank_code_raw).

(** A write-off entered with negative amounts. *)
Definition negative_raw : DataFrame :=
  sheet [ [Str "Cadeira"; Str "Sem Uso"; Str "RH"; Str "Caio"; Str "INV-3";
           Str "Mobiliario"; Str "Moveis"; Num (-5); Num 20; Num 5;
           Num (-1)] ].

Definition negative_row : Row :=
  Eval vm_compute in hd [] (rows (frame_of (load_decimal negative_raw))).

(** The normalised frame of a sheet without records. *)
Definition empty_df : DataFrame :=
  {| columns := canonical_columns; rows := [] |}.

(** The indicators of the sample. *)
Definition sample_insights : Insights :=
  Eval vm_compute in
    value {| total_dep := 0; patrimonio_total := 0; avg_dep := 0;
             mac_dep := 0; license_dep := 0; mac_count := 0;
             license_count := 0; tracked_pct := NaN; tracked_count := 0;
             low_cost_dep := 0; low_cost_count := 0; low_cost_pct := NaN;
             sem_uso_pct := 0; sem_uso_count := 0; centros := [];
             top_centros_share := 0; top_centros_names := "";
             total_items := 0 |}
      (compute_insights sample_df).

(** ** Labels and records of the sheet *)

(** The labels [load_inventory] writes. *)
Definition written_labels : list string :=
  [ "valor_unitario"; "depreciacao_unitaria"; "categoria"; "numero_inventario";
    "usuario"; "is_mac"; "is_license"; "is_low_cost"; "tem_usuario";
    "tem_inventario"; "rastreados"; "dep_referencia"; "prioridade" ].

(** The labels it adds when the sheet does not have them. *)
Definition derived_labels : list string :=
  [ "is_mac"; "is_license"; "is_low_cost"; "tem_usuario"; "tem_inventario";
    "rastreados"; "dep_referencia"; "prioridade" ].

Definition add_column (labels : list string) (c : string) : list string :=
  if has_label c labels then labels else (labels ++ [c])%list.

(** The columns [load_inventory] reads from the sheet, and the flags it
    reads back after writing them. *)
Definition read_labels : list string :=
  [ "valor_unitario"; "depreciacao_unitaria"; "categoria"; "numero_inventario";
    "usuario"; "nome"; "tipo_item" ].

Definition flag_labels : list string :=
  [ "is_mac"; "is_license"; "tem_usuario"; "tem_inventario" ].

(** A record of the relabelled sheet that [load_inventory] gets through:
    its two amounts convert to floats, and its type is text unless the
    record is a Mac or a licence. *)
Definition row_loads (float_of_str : string -> option Q) (r : Row) : Prop :=
  (exists v, to_float float_of_str (row_get r "valor_unitario") = Ok v) /\
  (exists d, to_float float_of_str (row_get r "depreciacao_unitaria") = Ok d) /\
  (truth (Col.str_contains_cell "mac" (row_get r "nome")) = false ->
   truth (Col.str_contains_cell "licenca" (row_get r "tipo_item")) = false ->
   exists t, row_get r "tipo_item" = Str t).

(** ** Frames the indicators can be computed on *)

(** The column [c] of the records, and the records flagged under [c]. *)
Definition column (c : string) (rs : list Row) : Series :=
  map (fun r => row_get r c) rs.

Definition flag_on (c : string) (r : Row) : bool := truth (row_get r c).

Definition count_rows (c : string) (rs : list Row) : nat :=
  length (filter (flag_on c) rs).

(** A cell that holds an amount (a float, NaN included), a flag, the key
    of a group. *)
Definition amount (v : cell) : Prop := v = NA \/ exists q, v = Num q.
Definition flag (v : cell) : Prop := exists b, v = Bln b.
Definition group_key (v : cell) : Prop := v = NA \/ exists t, v = Str t.

(** The columns [compute_insights] reads. *)
Definition indicator_labels : list string :=
  [ "valor_unitario"; "is_mac"; "is_license"; "is_low_cost"; "rastreados";
    "status"; "grupo"; "dep_referencia" ].

Definition row_ready (r : Row) : Prop :=
  amount (row_get r "valor_unitario") /\
  amount (row_get r "dep_referencia") /\
  flag (row_get r "is_mac") /\
  flag (row_get r "is_license") /\
  flag (row_get r "is_low_cost") /\
  flag (row_get r "rastreados") /\
  group_key (row_get r "grupo").

(** A frame with the eight columns, each once, under none of the two
    sheet labels, whose records hold amounts, flags and group keys where
    the indicators expect them. *)
Definition ready (df : DataFrame) : Prop :=
  has_label DEP_UNITARIA_LABEL (columns df) = false /\
  has_label DEP_MERCADO_LABEL (columns df) = false /\
  Forall (fun c => count_label c (columns df) = 1) indicator_labels /\
  Forall row_ready (rows df).

(** The sum of a list of amounts. *)
Definition qsum (l : list Q) : Q := fold_right Qplus 0%Q l.

(** The reference depreciation the flags of a record call for, when one
    of them is set. *)
Definition premium_amount (r : Row) : Q :=
  if flag_on "is_license" r then LICENSE_REFERENCE_DEPRECIATION
  else MAC_REFERENCE_DEPRECIATION.

(** Macs that are not licences, and Macs that are. *)
Definition mac_only (r : Row) : bool :=
  flag_on "is_mac" r && negb (flag_on "is_license" r).

Definition mac_and_license (r : Row) : bool :=
  flag_on "is_mac" r && flag_on "is_license" r.


(** The order of a ranking: the larger amount first. *)
Definition ranks_before (a b : string * Q) : Prop := (snd b <= snd a)%Q.



(** A sheet whose normalised frame [render] gets through: once
    relabelled it has the status and the group once, none of the columns
    the normaliser writes last twice, and text or nothing for the group of
    each record. *)
Definition sheet_ready (raw : DataFrame) : Prop :=
  Forall (fun c => count_label c (columns (relabel raw)) = 1)
    ["status"; "grupo"] /\
  Forall (fun c => count_label c (columns (relabel raw)) <= 1)
    ["is_low_cost"; "rastreados"; "dep_referencia"; "prioridade"] /\
  Forall (fun r => group_key (row_get r "grupo")) (rows (relabel raw)).

(** ** Rows and frames: the laws used below *)

Lemma has_label_true c labels :
  has_label c labels = true <-> In c labels.
Proof.
  unfold has_label. rewrite existsb_exists. split.
  - intros [x [Hin Heq]]. apply String.eqb_eq in Heq. now subst.
  - intro Hin. exists c. split; [assumption | apply String.eqb_refl].
Qed.

Lemma row_get_replace_same c v r :
  has_label c (map fst r) = true -> row_get (row_replace c v r) c = v.
Proof.
  induction r as [| [k w] r IH]; simpl; [discriminate |].
  destruct (String.eqb c k) eqn:E; [reflexivity | exact IH].
Qed.

Lemma row_get_replace_other c c' v r :
  String.eqb c' c = false ->
  row_get (row_replace c v r) c' = row_get r c'.
Proof.
  intro Hne. induction r as [| [k w] r IH]; simpl; [reflexivity |].
  destruct (String.eqb c' k) eqn:E; [| exact IH].
  apply String.eqb_eq in E. subst k.
  rewrite String.eqb_sym, Hne. reflexivity.
Qed.

Lemma row_get_app_absent c r r' :
  has_label c (map fst r) = false -> row_get (r ++ r')%list c = row_get r' c.
Proof.
  induction r as [| [k w] r IH]; simpl; [reflexivity |].
  destruct (String.eqb c k); [discriminate | exact IH].
Qed.

Lemma row_get_app_other c r r' :
  row_get r' c = NA -> row_get (r ++ r')%list c = row_get r c.
Proof.
  intro H. induction r as [| [k w] r IH]; simpl.
  - exact H.
  - destruct (String.eqb c k); [reflexivity | exact IH].
Qed.

Lemma row_get_set_same c v r : row_get (row_set c v r) c = v.
Proof.
  unfold row_set. destruct (has_label c (map fst r)) eqn:E.
  - now apply row_get_replace_same.
  - rewrite row_get_app_absent by assumption.
    simpl. now rewrite String.eqb_refl.
Qed.

Lemma row_get_set_other c c' v r :
  String.eqb c' c = false -> row_get (row_set c v r) c' = row_get r c'.
Proof.
  intro Hne. unfold row_set. destruct (has_label c (map fst r)).
  - now apply row_get_replace_other.
  - apply row_get_app_other. simpl. now rewrite Hne.
Qed.

Lemma getitem_Ok df c s :
  getitem df c = Ok s -> s = map (fun r => row_get r c) (rows df).
Proof.
  unfold getitem. destruct (count_label c (columns df)) as [| [| n]];
    intro H; inversion H; reflexivity.
Qed.

Lemma assign_map c (g : Row -> cell) rs :
  assign c (map g rs) rs = map (fun r => row_set c (g r) r) rs.
Proof.
  induction rs as [| r rs IH]; simpl; [reflexivity | now rewrite IH].
Qed.

Lemma loc_assign_map c v (g : Row -> cell) rs :
  loc_assign c v (map g rs) rs
  = map (fun r => if truth (g r) then row_set c v r else r) rs.
Proof.
  induction rs as [| r rs IH]; simpl; [reflexivity | now rewrite IH].
Qed.

Lemma combine_map {A B C : Type} (f : A -> B) (g : A -> C) l :
  combine (map f l) (map g l) = map (fun x => (f x, g x)) l.
Proof.
  induction l as [| a l IH]; simpl; [reflexivity | now rewrite IH].
Qed.

Lemma mapM_Ok {A B : Type} (f : A -> result B) l l' :
  mapM f l = Ok l' -> Forall2 (fun a b => f a = Ok b) l l'.
Proof.
  revert l'. induction l as [| a l IH]; simpl; intros l' H.
  - inversion H. constructor.
  - destruct (f a) eqn:Ea; simpl in H; [| discriminate].
    destruct (mapM f l) eqn:El; simpl in H; [| discriminate].
    inversion H. subst. constructor; [assumption | now apply IH].
Qed.

Lemma Forall2_mapM {A B : Type} (f : A -> result B) l l' :
  Forall2 (fun a b => f a = Ok b) l l' -> mapM f l = Ok l'.
Proof.
  induction 1 as [| a b l l' Hab _ IH]; simpl; [reflexivity |].
  now rewrite Hab, IH.
Qed.

Lemma mapM_value {A B : Type} (d : B) (f : A -> result B) l l' :
  mapM f l = Ok l' -> l' = map (fun a => value d (f a)) l.
Proof.
  intro H. apply mapM_Ok in H.
  induction H as [| a b l l' Hab _ IH]; simpl; [reflexivity |].
  now rewrite Hab, IH.
Qed.

Lemma mapM_In {A B : Type} (f : A -> result B) l l' a :
  mapM f l = Ok l' -> In a l -> exists b, f a = Ok b.
Proof.
  intros H Hin. apply mapM_Ok in H.
  induction H as [| x y l l' Hxy _ IH]; [contradiction |].
  destruct Hin as [-> | Hin]; [now exists y | now apply IH].
Qed.

Lemma rows_setitem df c (g : Row -> cell) s :
  s = map g (rows df) -> rows (setitem df c s) = map (step c g) (rows df).
Proof.
  intros ->. unfold setitem; simpl. apply assign_map.
Qed.

Lemma rows_loc_setitem df m c v mask :
  mask = map (fun r => row_get r m) (rows df) ->
  rows (loc_setitem df mask c v) = map (step_where m c v) (rows df).
Proof.
  intros ->. unfold loc_setitem; simpl. apply loc_assign_map.
Qed.

Lemma row_get_step_same c g r : row_get (step c g r) c = g r.
Proof. apply row_get_set_same. Qed.

Lemma row_get_step_other c c' g r :
  String.eqb c' c = false -> row_get (step c g r) c' = row_get r c'.
Proof. apply row_get_set_other. Qed.

Lemma row_get_where_same m c v r :
  row_get (step_where m c v r) c
  = if truth (row_get r m) then v else row_get r c.
Proof.
  unfold step_where. destruct (truth (row_get r m)); [| reflexivity].
  apply row_get_set_same.
Qed.

Lemma row_get_where_other m c c' v r :
  String.eqb c' c = false -> row_get (step_where m c v r) c' = row_get r c'.
Proof.
  intro Hne. unfold step_where. destruct (truth (row_get r m)); [| reflexivity].
  now apply row_get_set_other.
Qed.

Create Rewrite HintDb rowdb.
#[export] Hint Rewrite row_get_step_same row_get_set_same row_get_where_same
  : rowdb.
#[export] Hint Rewrite row_get_step_other row_get_set_other row_get_where_other
  using reflexivity : rowdb.

Lemma bind_Ok {A B : Type} (x : result A) (f : A -> result B) b :
  bind x f = Ok b -> exists a, x = Ok a /\ f a = Ok b.
Proof.
  destruct x as [a | e]; simpl; intro H; [now exists a | discriminate].
Qed.

Ltac open_bind H :=
  match type of H with
  | bind ?x _ = Ok _ =>
      let s := fresh "s" in
      let E := fresh "E" in
      apply bind_Ok in H; destruct H as [s [E H]]
  end.

(** ** The normaliser, row by row *)

Section NormaliserFacts.

Variable float_of_str : string -> option Q.
Variable str_of_float : Q -> string.

Local Abbreviation load := (load_inventory float_of_str str_of_float).
Local Abbreviation nrow := (normalize_row float_of_str str_of_float).
Local Abbreviation tofloat := (to_float float_of_str).
Local Abbreviation tostr := (to_str str_of_float).

Lemma rows_setitem_col df c a (h : cell -> cell) s :
  getitem df a = Ok s ->
  rows (setitem df c (map h s))
  = map (step c (fun r => h (row_get r a))) (rows df).
Proof.
  intro E. apply rows_setitem. apply getitem_Ok in E. subst s.
  now rewrite map_map.
Qed.

Lemma rows_setitem_copy df c a s :
  getitem df a = Ok s ->
  rows (setitem df c s) = map (step c (fun r => row_get r a)) (rows df).
Proof.
  intro E. apply rows_setitem. now apply getitem_Ok in E.
Qed.

Lemma rows_setitem_and df c a b s1 s2 :
  getitem df a = Ok s1 -> getitem df b = Ok s2 ->
  rows (setitem df c (Col.and s1 s2))
  = map (step c (fun r => Col.and_cell (row_get r a) (row_get r b))) (rows df).
Proof.
  intros E1 E2. apply rows_setitem.
  apply getitem_Ok in E1. apply getitem_Ok in E2. subst s1 s2.
  unfold Col.and. now rewrite combine_map, map_map.
Qed.

Lemma rows_setitem_float df c a s s' :
  getitem df a = Ok s -> astype_float float_of_str s = Ok s' ->
  rows (setitem df c s')
  = map (step c (fun r => value NA (tofloat (row_get r a)))) (rows df).
Proof.
  intros E M. apply rows_setitem. apply getitem_Ok in E. subst s.
  apply (mapM_value NA) in M. subst s'. now rewrite map_map.
Qed.

Lemma rows_setitem_apply df c (f : Row -> result cell) p :
  mapM f (rows df) = Ok p ->
  rows (setitem df c p) = map (step c (fun r => value NA (f r))) (rows df).
Proof.
  intro M. apply rows_setitem. now apply (mapM_value NA) in M.
Qed.

Lemma rows_loc_setitem_col df m c v mask :
  getitem df m = Ok mask ->
  rows (loc_setitem df mask c v) = map (step_where m c v) (rows df).
Proof.
  intro E. apply rows_loc_setitem. now apply getitem_Ok in E.
Qed.

Ltac rows_step R :=
  match type of R with
  | context [rows (setitem ?d ?c ?s')] =>
      match goal with
      | E : getitem d ?a = Ok ?s, M : astype_float _ ?s = Ok s' |- _ =>
          rewrite (rows_setitem_float d c a s s' E M) in R
      | M : mapM ?f (rows d) = Ok s' |- _ =>
          rewrite (rows_setitem_apply d c f s' M) in R
      | E : getitem d ?a = Ok s' |- _ =>
          rewrite (rows_setitem_copy d c a s' E) in R
      end
  | context [rows (setitem ?d ?c (map ?h ?s))] =>
      match goal with
      | E : getitem d ?a = Ok s |- _ =>
          rewrite (rows_setitem_col d c a h s E) in R
      end
  | context [rows (setitem ?d ?c (Col.and ?s1 ?s2))] =>
      match goal with
      | E1 : getitem d ?a = Ok s1, E2 : getitem d ?b = Ok s2 |- _ =>
          rewrite (rows_setitem_and d c a b s1 s2 E1 E2) in R
      end
  | context [rows (loc_setitem ?d ?mask ?c ?v)] =>
      match goal with
      | E : getitem d ?m = Ok mask |- _ =>
          rewrite (rows_loc_setitem_col d m c v mask E) in R
      end
  end.

Lemma Forall2_map_r {A B : Type} (P : A -> B -> Prop) (F : A -> B) l :
  (forall a, In a l -> P a (F a)) -> Forall2 P l (map F l).
Proof.
  induction l as [| a l IH]; simpl; intro H; constructor.
  - apply H. now left.
  - apply IH. intros x Hx. apply H. now right.
Qed.

Lemma mapM_map_In {A B C : Type} (f : B -> result C) (g : A -> B) l l' a :
  mapM f (map g l) = Ok l' -> In a l -> exists c, f (g a) = Ok c.
Proof.
  intros M Hin. apply (mapM_In _ _ _ _ M). now apply in_map.
Qed.

Lemma step_value c (f : Row -> result cell) r v :
  f r = Ok v -> step c (fun r => value NA (f r)) r = row_set c v r.
Proof.
  intro E. unfold step. now rewrite E.
Qed.

Local Opaque step step_where row_set row_get classify_priority.

Lemma load_inventory_by_rows raw df :
  load raw = Ok df ->
  mapM nrow (rows (relabel raw)) = Ok (rows df).
Proof.
  intro H. unfold load_inventory in H. fold (relabel raw) in H.
  repeat open_bind H.
  injection H as <-.
  unfold Col.str_strip, Col.str_contains, Col.fillna, astype_str, Col.le,
    Col.gt, Col.inv, Col.str_len in *.
  repeat rewrite map_map in *.
  match goal with
  | |- _ = Ok ?r => remember r as out eqn:R
  end.
  repeat rows_step R.
  (* the three statements that can raise did not *)
  pose proof (getitem_Ok _ _ _ E) as G0.
  pose proof (getitem_Ok _ _ _ E1) as G1. repeat rows_step G1.
  match goal with
  | M : mapM classify_priority _ = Ok _ |- _ =>
      pose proof M as G2; repeat rows_step G2
  end.
  unfold astype_float in E0, E2. rewrite G0 in E0. rewrite G1 in E2.
  repeat rewrite map_map in E2. repeat rewrite map_map in G2.
  repeat rewrite map_map in R.
  subst out. apply Forall2_mapM, Forall2_map_r. intros r Hr.
  destruct (mapM_map_In _ _ _ _ _ E0 Hr) as [v1 V1].
  destruct (mapM_map_In _ _ _ _ _ E2 Hr) as [v2 V2].
  destruct (mapM_map_In _ _ _ _ _ G2 Hr) as [pr V3].
  pose proof (step_value "valor_unitario"
                (fun r => tofloat (row_get r "valor_unitario")) _ _ V1) as A1.
  cbv beta in A1.
  rewrite A1 in V2.
  pose proof (step_value "depreciacao_unitaria"
                (fun r => tofloat (row_get r "depreciacao_unitaria")) _ _ V2)
    as A2.
  cbv beta in A2.
  rewrite A1 in V3. rewrite A2 in V3.
  rewrite A1, A2.
  pose proof (step_value "prioridade" classify_priority _ _ V3) as A3.
  rewrite A3.
  unfold normalize_row.
  rewrite V1. cbn [bind]. rewrite V2. cbn [bind].
  rewrite V3. cbn [bind]. cbv beta. reflexivity.
Qed.

Local Transparent classify_priority.

(** A record of the normalised frame is [normalize_row] of a record of
    the relabelled sheet. *)
Lemma load_inventory_row raw df r :
  load raw = Ok df -> In r (rows df) ->
  exists r0, In r0 (rows (relabel raw)) /\ nrow r0 = Ok r.
Proof.
  intros H Hin. apply load_inventory_by_rows, mapM_Ok in H.
  induction H as [| a b l l' Hab _ IH]; [contradiction |].
  destruct Hin as [<- | Hin].
  - exists a. split; [now left | assumption].
  - destruct (IH Hin) as [r0 [Hr0 Hn]]. exists r0. split; [now right | assumption].
Qed.

(** What a normalised record holds, field by field. *)
Ltac nrow_inv H :=
  unfold normalize_row in H; repeat open_bind H; injection H as <-.

Lemma nrow_valor_unitario r0 r :
  nrow r0 = Ok r ->
  tofloat (row_get r0 "valor_unitario") = Ok (row_get r "valor_unitario").
Proof.
  intro H. nrow_inv H. autorewrite with rowdb. assumption.
Qed.

Lemma nrow_depreciacao_unitaria r0 r :
  nrow r0 = Ok r ->
  tofloat (row_get r0 "depreciacao_unitaria")
  = Ok (row_get r "depreciacao_unitaria").
Proof.
  intro H. nrow_inv H. autorewrite with rowdb in *. assumption.
Qed.

Lemma nrow_numero_inventario r0 r :
  nrow r0 = Ok r ->
  row_get r "numero_inventario"
  = Col.strip_cell (tostr (Col.fillna_cell (Str SEM_INVENTARIO)
                             (row_get r0 "numero_inventario"))).
Proof.
  intro H. nrow_inv H. now autorewrite with rowdb.
Qed.

Lemma nrow_usuario r0 r :
  nrow r0 = Ok r ->
  row_get r "usuario"
  = Col.strip_cell (tostr (Col.fillna_cell (Str "") (row_get r0 "usuario"))).
Proof.
  intro H. nrow_inv H. now autorewrite with rowdb.
Qed.

Lemma nrow_tipo_item r0 r :
  nrow r0 = Ok r -> row_get r "tipo_item" = row_get r0 "tipo_item".
Proof.
  intro H. nrow_inv H. now autorewrite with rowdb.
Qed.

Lemma nrow_is_mac r0 r :
  nrow r0 = Ok r ->
  row_get r "is_mac" = Col.str_contains_cell "mac" (row_get r0 "nome").
Proof.
  intro H. nrow_inv H. now autorewrite with rowdb.
Qed.

Lemma nrow_is_license r0 r :
  nrow r0 = Ok r ->
  row_get r "is_license"
  = Col.str_contains_cell "licenca" (row_get r "tipo_item").
Proof.
  intro H. nrow_inv H. now autorewrite with rowdb.
Qed.

Lemma nrow_is_low_cost r0 r :
  nrow r0 = Ok r ->
  row_get r "is_low_cost"
  = Col.le_cell LOW_COST_THRESHOLD (row_get r "valor_unitario").
Proof.
  intro H. nrow_inv H. now autorewrite with rowdb.
Qed.

Lemma nrow_tem_usuario r0 r :
  nrow r0 = Ok r ->
  row_get r "tem_usuario" = Col.gt_cell 0 (Col.len_cell (row_get r "usuario")).
Proof.
  intro H. nrow_inv H. now autorewrite with rowdb.
Qed.

Lemma nrow_tem_inventario r0 r :
  nrow r0 = Ok r ->
  row_get r "tem_inventario"
  = Col.inv_cell (Col.str_contains_cell "sem" (row_get r "numero_inventario")).
Proof.
  intro H. nrow_inv H. now autorewrite with rowdb.
Qed.

Lemma nrow_rastreados r0 r :
  nrow r0 = Ok r ->
  row_get r "rastreados"
  = Col.and_cell (row_get r "tem_usuario") (row_get r "tem_inventario").
Proof.
  intro H. nrow_inv H. now autorewrite with rowdb.
Qed.

Lemma nrow_dep_referencia r0 r :
  nrow r0 = Ok r ->
  row_get r "dep_referencia"
  = if truth (row_get r "is_license")
    then Num LICENSE_REFERENCE_DEPRECIATION
    else if truth (row_get r "is_mac")
         then Num MAC_REFERENCE_DEPRECIATION
         else row_get r "depreciacao_unitaria".
Proof.
  intro H. nrow_inv H. now autorewrite with rowdb.
Qed.

Lemma nrow_prioridade r0 r :
  nrow r0 = Ok r -> classify_priority r = Ok (row_get r "prioridade").
Proof.
  intro H. nrow_inv H. unfold classify_priority in *.
  autorewrite with rowdb in *. assumption.
Qed.

Local Transparent step step_where row_set row_get.

End NormaliserFacts.

Lemma sample_loaded : load_decimal sample_raw = Ok sample_df.
Proof. vm_compute. reflexivity. Qed.

Lemma sample_row_in : In sample_row (rows sample_df).
Proof. left. reflexivity. Qed.

(** ** Properties of the normalised records *)

Lemma strip_cell_text (sof : Q -> string) d v :
  exists t, Col.strip_cell (to_str sof (Col.fillna_cell (Str d) v)) = Str t.
Proof.
  destruct v; simpl; eexists; reflexivity.
Qed.

Lemma contains_cell_bool pat v : exists b, Col.str_contains_cell pat v = Bln b.
Proof.
  destruct v; simpl; eexists; reflexivity.
Qed.

Lemma gt_zero_length t :
  Col.gt_cell 0 (Col.len_cell (Str t)) = Bln (negb (String.eqb t "")).
Proof.
  destruct t as [| a t]; [reflexivity |].
  assert (E : Qle_bool (inject_Z (Z.of_nat (String.length (String a t)))) 0
              = false).
  { unfold Qle_bool, inject_Z. cbn [Qnum Qden String.length].
    apply Z.leb_gt. lia. }
  unfold Col.len_cell, Col.gt_cell. rewrite E. reflexivity.
Qed.

Lemma flags_are_booleans fos sof raw df r :
  load_inventory fos sof raw = Ok df -> In r (rows df) ->
  exists mac lic,
    row_get r "is_mac" = Bln mac /\ row_get r "is_license" = Bln lic.
Proof.
  intros H Hin.
  destruct (load_inventory_row _ _ _ _ _ H Hin) as [r0 [_ N]].
  destruct (contains_cell_bool "mac" (row_get r0 "nome")) as [mac Hm].
  destruct (contains_cell_bool "licenca" (row_get r "tipo_item")) as [lic Hl].
  exists mac, lic.
  rewrite <- (nrow_is_mac _ _ _ _ N) in Hm.
  rewrite <- (nrow_is_license _ _ _ _ N) in Hl.
  now split.
Qed.

(** C3.  In every record of the normalised frame the reference
    depreciation is [LICENSE_REFERENCE_DEPRECIATION] (1200) when the record
    is a licence, also when it is a Mac as well;
    [MAC_REFERENCE_DEPRECIATION] (2145) when it is a Mac and no licence; the
    unit depreciation when it is neither. *)
Theorem reference_depreciation_by_flags fos sof raw df r :
  load_inventory fos sof raw = Ok df -> In r (rows df) ->
  exists mac lic,
    row_get r "is_mac" = Bln mac /\ row_get r "is_license" = Bln lic /\
    row_get r "dep_referencia"
    = (if lic then Num LICENSE_REFERENCE_DEPRECIATION
       else if mac then Num MAC_REFERENCE_DEPRECIATION
       else row_get r "depreciacao_unitaria") /\
    LICENSE_REFERENCE_DEPRECIATION = 1200%Q /\
    MAC_REFERENCE_DEPRECIATION = 2145%Q.
Proof.
  intros H Hin.
  destruct (flags_are_booleans _ _ _ _ _ H Hin) as [mac [lic [Hm Hl]]].
  destruct (load_inventory_row _ _ _ _ _ H Hin) as [r0 [_ N]].
  exists mac, lic. repeat split; try assumption.
  rewrite (nrow_dep_referencia _ _ _ _ N), Hm, Hl. reflexivity.
Qed.

Lemma reference_depreciation_by_flags_witness :
  load_decimal sample_raw = Ok sample_df /\ In sample_row (rows sample_df) /\
  exists mac lic,
    row_get sample_row "is_mac" = Bln mac /\
    row_get sample_row "is_license" = Bln lic /\
    row_get sample_row "dep_referencia"
    = (if lic then Num LICENSE_REFERENCE_DEPRECIATION
       else if mac then Num MAC_REFERENCE_DEPRECIATION
       else row_get sample_row "depreciacao_unitaria") /\
    LICENSE_REFERENCE_DEPRECIATION = 1200%Q /\
    MAC_REFERENCE_DEPRECIATION = 2145%Q.
Proof.
  split; [vm_compute; reflexivity |].
  split; [left; reflexivity |].
  apply (reference_depreciation_by_flags float_of_decimal str_of_decimal
           sample_raw sample_df sample_row).
  - vm_compute; reflexivity.
  - left; reflexivity.
Defined.

(** C6.  In every record of the normalised frame [rastreados] is the
    conjunction of [tem_usuario], which tells that the owner text is not
    empty, and [tem_inventario], which tells that the inventory code does
    not hold the marker [sem] in any case. *)
Theorem tracked_is_owner_and_code fos sof raw df r :
  load_inventory fos sof raw = Ok df -> In r (rows df) ->
  exists owner code,
    row_get r "usuario" = Str owner /\
    row_get r "numero_inventario" = Str code /\
    row_get r "tem_usuario" = Bln (negb (String.eqb owner "")) /\
    row_get r "tem_inventario" = Bln (negb (search_nocase "sem" code)) /\
    row_get r "rastreados"
    = Bln (negb (String.eqb owner "") && negb (search_nocase "sem" code)).
Proof.
  intros H Hin.
  destruct (load_inventory_row _ _ _ _ _ H Hin) as [r0 [_ N]].
  destruct (strip_cell_text sof "" (row_get r0 "usuario")) as [owner Ho].
  destruct (strip_cell_text sof SEM_INVENTARIO (row_get r0 "numero_inventario"))
    as [code Hc].
  rewrite <- (nrow_usuario _ _ _ _ N) in Ho.
  rewrite <- (nrow_numero_inventario _ _ _ _ N) in Hc.
  pose proof (nrow_tem_usuario _ _ _ _ N) as Hu.
  pose proof (nrow_tem_inventario _ _ _ _ N) as Hi.
  pose proof (nrow_rastreados _ _ _ _ N) as Ht.
  rewrite Ho, gt_zero_length in Hu. rewrite Hc in Hi. simpl in Hi.
  rewrite Hu, Hi in Ht.
  exists owner, code. repeat split; assumption.
Qed.

Lemma tracked_is_owner_and_code_witness :
  load_decimal sample_raw = Ok sample_df /\ In sample_row (rows sample_df) /\
  exists owner code,
    row_get sample_row "usuario" = Str owner /\
    row_get sample_row "numero_inventario" = Str code /\
    row_get sample_row "tem_usuario" = Bln (negb (String.eqb owner "")) /\
    row_get sample_row "tem_inventario" = Bln (negb (search_nocase "sem" code)) /\
    row_get sample_row "rastreados"
    = Bln (negb (String.eqb owner "") && negb (search_nocase "sem" code)).
Proof.
  split; [vm_compute; reflexivity |].
  split; [left; reflexivity |].
  apply (tracked_is_owner_and_code float_of_decimal str_of_decimal
           sample_raw sample_df sample_row).
  - vm_compute; reflexivity.
  - left; reflexivity.
Defined.

Lemma load_inventory_pairs fos sof raw df :
  load_inventory fos sof raw = Ok df ->
  Forall2 (fun r0 r => normalize_row fos sof r0 = Ok r)
    (rows (relabel raw)) (rows df).
Proof.
  intro H. now apply mapM_Ok, load_inventory_by_rows.
Qed.

Lemma Forall2_weaken {A B : Type} (P Q : A -> B -> Prop) l l' :
  (forall a b, P a b -> Q a b) -> Forall2 P l l' -> Forall2 Q l l'.
Proof.
  intros HPQ H. induction H; constructor; auto.
Qed.

(** C4, as the code has it.  Priority goes by first match: a Mac or a
    licence is [Premium controlado], whatever its type; otherwise the type,
    lower-cased, decides: one of computador, telefone, monitor, impressora
    is [Essencial], anything else [Não essencial]. *)
Theorem priority_by_first_match fos sof raw df r :
  load_inventory fos sof raw = Ok df -> In r (rows df) ->
  exists mac lic,
    row_get r "is_mac" = Bln mac /\ row_get r "is_license" = Bln lic /\
    (mac || lic = true -> row_get r "prioridade" = Str PREMIUM) /\
    (mac || lic = false ->
     exists t, row_get r "tipo_item" = Str t /\
       row_get r "prioridade"
       = Str (if has_label (lower t)
                   ["computador"; "telefone"; "monitor"; "impressora"]
              then ESSENCIAL else NAO_ESSENCIAL)).
Proof.
  intros H Hin.
  destruct (flags_are_booleans _ _ _ _ _ H Hin) as [mac [lic [Hm Hl]]].
  destruct (load_inventory_row _ _ _ _ _ H Hin) as [r0 [_ N]].
  apply nrow_prioridade in N. unfold classify_priority in N.
  rewrite Hm, Hl in N. cbn [truth] in N.
  exists mac, lic. repeat split; try assumption.
  - intro E. rewrite E in N. now inversion N.
  - intro E. rewrite E in N.
    destruct (row_get r "tipo_item") as [| t | q | b]; try discriminate N.
    exists t. split; [reflexivity |].
    unfold essential_types in N.
    destruct (has_label (lower t) _); now inversion N.
Qed.

Lemma priority_by_first_match_witness :
  load_decimal sample_raw = Ok sample_df /\ In sample_row (rows sample_df) /\
  exists mac lic,
    row_get sample_row "is_mac" = Bln mac /\
    row_get sample_row "is_license" = Bln lic /\
    (mac || lic = true -> row_get sample_row "prioridade" = Str PREMIUM) /\
    (mac || lic = false ->
     exists t, row_get sample_row "tipo_item" = Str t /\
       row_get sample_row "prioridade"
       = Str (if has_label (lower t)
                   ["computador"; "telefone"; "monitor"; "impressora"]
              then ESSENCIAL else NAO_ESSENCIAL)).
Proof.
  split; [vm_compute; reflexivity |].
  split; [left; reflexivity |].
  apply (priority_by_first_match float_of_decimal str_of_decimal
           sample_raw sample_df sample_row).
  - vm_compute; reflexivity.
  - left; reflexivity.
Defined.

(** C4 as worded names the types computer, phone, monitor, printer: a
    record of type [computer] that is neither Mac nor licence is not
    [Essencial]. *)
Lemma priority_english_type_counterexample :
  load_decimal computer_raw
  = Ok {| columns := canonical_columns;
          rows := [computer_row] |} /\
  row_get computer_row "is_mac" = Bln false /\
  row_get computer_row "is_license" = Bln false /\
  row_get computer_row "tipo_item" = Str "computer" /\
  has_label (lower "computer") ["computer"; "phone"; "monitor"; "printer"]
  = true /\
  row_get computer_row "prioridade" = Str NAO_ESSENCIAL /\
  NAO_ESSENCIAL <> ESSENCIAL.
Proof.
  repeat split; try (vm_compute; reflexivity).
  vm_compute. discriminate.
Qed.

(** C8, as the code has it.  [is_license] tells that the item type is
    text holding [licenca] in any case. *)
Theorem license_flag_is_licenca fos sof raw df r :
  load_inventory fos sof raw = Ok df -> In r (rows df) ->
  row_get r "is_license"
  = match row_get r "tipo_item" with
    | Str t => Bln (search_nocase "licenca" t)
    | _ => Bln false
    end.
Proof.
  intros H Hin.
  destruct (load_inventory_row _ _ _ _ _ H Hin) as [r0 [_ N]].
  rewrite (nrow_is_license _ _ _ _ N).
  destruct (row_get r "tipo_item"); reflexivity.
Qed.

Lemma license_flag_is_licenca_witness :
  load_decimal sample_raw = Ok sample_df /\ In sample_row (rows sample_df) /\
  row_get sample_row "is_license"
  = match row_get sample_row "tipo_item" with
    | Str t => Bln (search_nocase "licenca" t)
    | _ => Bln false
    end.
Proof.
  split; [vm_compute; reflexivity |].
  split; [left; reflexivity |].
  apply (license_flag_is_licenca float_of_decimal str_of_decimal
           sample_raw sample_df sample_row).
  - vm_compute; reflexivity.
  - left; reflexivity.
Defined.

(** C8 as worded tests for [licen]: the type [Licença] holds it and is not
    flagged. *)
Lemma license_licen_counterexample :
  load_decimal licenca_raw
  = Ok {| columns := canonical_columns;
          rows := [licenca_row] |} /\
  row_get licenca_row "tipo_item" = Str (latin1 "Licença") /\
  search_nocase "licen" (latin1 "Licença") = true /\
  row_get licenca_row "is_license" = Bln false.
Proof.
  repeat split; vm_compute; reflexivity.
Qed.

(** C7, as the code has it.  A missing inventory code becomes the
    sentinel [Sem inventário]; a code that is present is kept, trimmed, so
    that blank text leaves an empty code. *)
Theorem inventory_code_filled_then_trimmed fos sof raw df :
  load_inventory fos sof raw = Ok df ->
  Forall2
    (fun r0 r =>
       row_get r "numero_inventario"
       = match row_get r0 "numero_inventario" with
         | NA => Str SEM_INVENTARIO
         | Str t => Str (strip t)
         | Num q => Str (strip (sof q))
         | Bln b => Str (if b then "True" else "False")
         end)
    (rows (relabel raw)) (rows df)
  /\ SEM_INVENTARIO <> "".
Proof.
  intro H. split; [| discriminate].
  apply load_inventory_pairs in H.
  apply Forall2_weaken with (2 := H). intros r0 r N.
  rewrite (nrow_numero_inventario _ _ _ _ N).
  destruct (row_get r0 "numero_inventario") as [| t | q | []]; reflexivity.
Qed.

Lemma inventory_code_filled_then_trimmed_witness :
  load_decimal sample_raw = Ok sample_df /\
  (Forall2
     (fun r0 r =>
        row_get r "numero_inventario"
        = match row_get r0 "numero_inventario" with
          | NA => Str SEM_INVENTARIO
          | Str t => Str (strip t)
          | Num q => Str (strip (str_of_decimal q))
          | Bln b => Str (if b then "True" else "False")
          end)
     (rows (relabel sample_raw)) (rows sample_df)
   /\ SEM_INVENTARIO <> "").
Proof.
  split; [vm_compute; reflexivity |].
  apply (inventory_code_filled_then_trimmed float_of_decimal str_of_decimal
           sample_raw sample_df).
  vm_compute; reflexivity.
Defined.

(** C7 as worded: blank codes come out empty, and count as codes. *)
Lemma inventory_code_empty_counterexample :
  load_decimal blank_code_raw = Ok blank_code_df /\
  map (fun r => row_get r "numero_inventario") (rows (relabel blank_code_raw))
  = [Str "   "; Str ""] /\
  map (fun r => row_get r "numero_inventario") (rows blank_code_df)
  = [Str ""; Str ""] /\
  map (fun r => row_get r "tem_inventario") (rows blank_code_df)
  = [Bln true; Bln true].
Proof.
  repeat split; vm_compute; reflexivity.
Qed.

(** C9, as the code has it.  The unit value and the unit depreciation
    are the values of the sheet made floats, whatever their sign; the
    reference depreciation is not negative where the unit depreciation is
    not. *)
Theorem numeric_fields_follow_the_sheet fos sof raw df :
  load_inventory fos sof raw = Ok df ->
  Forall2
    (fun r0 r =>
       to_float fos (row_get r0 "valor_unitario")
       = Ok (row_get r "valor_unitario") /\
       to_float fos (row_get r0 "depreciacao_unitaria")
       = Ok (row_get r "depreciacao_unitaria") /\
       forall d, row_get r "depreciacao_unitaria" = Num d -> (0 <= d)%Q ->
         exists x, row_get r "dep_referencia" = Num x /\ (0 <= x)%Q)
    (rows (relabel raw)) (rows df).
Proof.
  intro H. apply load_inventory_pairs in H.
  apply Forall2_weaken with (2 := H). intros r0 r N.
  split; [exact (nrow_valor_unitario _ _ _ _ N) |].
  split; [exact (nrow_depreciacao_unitaria _ _ _ _ N) |].
  intros d Hd Hpos. rewrite (nrow_dep_referencia _ _ _ _ N).
  destruct (truth (row_get r "is_license")).
  - exists LICENSE_REFERENCE_DEPRECIATION. split; [reflexivity | discriminate].
  - destruct (truth (row_get r "is_mac")).
    + exists MAC_REFERENCE_DEPRECIATION. split; [reflexivity | discriminate].
    + exists d. now split.
Qed.

Lemma numeric_fields_follow_the_sheet_witness :
  load_decimal sample_raw = Ok sample_df /\
  Forall2
    (fun r0 r =>
       to_float float_of_decimal (row_get r0 "valor_unitario")
       = Ok (row_get r "valor_unitario") /\
       to_float float_of_decimal (row_get r0 "depreciacao_unitaria")
       = Ok (row_get r "depreciacao_unitaria") /\
       forall d, row_get r "depreciacao_unitaria" = Num d -> (0 <= d)%Q ->
         exists x, row_get r "dep_referencia" = Num x /\ (0 <= x)%Q)
    (rows (relabel sample_raw)) (rows sample_df).
Proof.
  split; [vm_compute; reflexivity |].
  apply (numeric_fields_follow_the_sheet float_of_decimal str_of_decimal
           sample_raw sample_df).
  vm_compute; reflexivity.
Defined.

(** C9 as worded: the three amounts of this record are negative. *)
Lemma numeric_fields_negative_counterexample :
  load_decimal negative_raw
  = Ok {| columns := canonical_columns; rows := [negative_row] |} /\
  row_get negative_row "valor_unitario" = Num (-5) /\
  row_get negative_row "depreciacao_unitaria" = Num (-1) /\
  row_get negative_row "dep_referencia" = Num (-1) /\
  ~ (0 <= -5)%Q /\ ~ (0 <= -1)%Q.
Proof.
  repeat split; try (vm_compute; reflexivity); intro H; now apply H.
Qed.

(** ** The priority filter *)

Lemma priority_is_true selection r :
  priority_is selection r = true <-> row_get r "prioridade" = Str selection.
Proof.
  unfold priority_is. destruct (row_get r "prioridade") as [| t | q | b];
    simpl; try (split; discriminate).
  rewrite String.eqb_eq. split; intro H; [now subst | now inversion H].
Qed.

Lemma select_map {A : Type} (g : A -> cell) l :
  select (map g l) l = filter (fun a => truth (g a)) l.
Proof.
  induction l as [| a l IH]; simpl; [reflexivity |].
  rewrite IH. reflexivity.
Qed.

Lemma not_in_unique_rows selection rs :
  not_in_unique selection (map (fun r => row_get r "prioridade") rs)
  = negb (existsb (priority_is selection) rs).
Proof.
  unfold not_in_unique. f_equal.
  induction rs as [| r rs IH]; simpl; [reflexivity | now rewrite IH].
Qed.

Lemma apply_priority_filter_eq df selection :
  count_label "prioridade" (columns df) = 1 ->
  apply_priority_filter df selection
  = Ok (if String.eqb selection INVENTARIO_COMPLETO
           || negb (existsb (priority_is selection) (rows df))
        then df
        else {| columns := columns df;
                rows := filter (priority_is selection) (rows df) |}).
Proof.
  intro Hc. unfold apply_priority_filter, getitem. rewrite Hc.
  destruct (String.eqb selection INVENTARIO_COMPLETO); [reflexivity |].
  cbn [bind orb]. rewrite not_in_unique_rows.
  destruct (negb (existsb (priority_is selection) (rows df))); [reflexivity |].
  unfold Col.eq_str. rewrite map_map, select_map. reflexivity.
Qed.

(** C5.  On a frame with its priority column, the filter gives the
    frame back, the very same, when the selection is [Inventário completo]
    or is the priority of no record; otherwise it keeps, in their order,
    exactly the records whose priority is the selection. *)
Theorem priority_filter_all_or_matching df selection :
  count_label "prioridade" (columns df) = 1 ->
  (selection = INVENTARIO_COMPLETO \/
   (forall r, In r (rows df) -> row_get r "prioridade" <> Str selection) ->
   apply_priority_filter df selection = Ok df) /\
  (selection <> INVENTARIO_COMPLETO ->
   (exists r, In r (rows df) /\ row_get r "prioridade" = Str selection) ->
   apply_priority_filter df selection
   = Ok {| columns := columns df;
           rows := filter (priority_is selection) (rows df) |}) /\
  (forall r, In r (filter (priority_is selection) (rows df)) <->
             In r (rows df) /\ row_get r "prioridade" = Str selection).
Proof.
  intro Hc. rewrite (apply_priority_filter_eq _ _ Hc).
  split; [| split; [| intro r; split]].
  - intros [-> | Hnone]; [now rewrite String.eqb_refl |].
    assert (E : existsb (priority_is selection) (rows df) = false).
    { apply not_true_is_false. rewrite existsb_exists.
      intros [r [Hin Hp]]. apply priority_is_true in Hp.
      exact (Hnone r Hin Hp). }
    rewrite E, orb_true_r. reflexivity.
  - intros Hsel [r [Hin Hp]].
    apply String.eqb_neq in Hsel. rewrite Hsel.
    assert (E : existsb (priority_is selection) (rows df) = true).
    { apply existsb_exists. exists r. split; [assumption |].
      now apply priority_is_true. }
    rewrite E. reflexivity.
  - intro Hin. apply filter_In in Hin. destruct Hin as [Hin Hp].
    split; [assumption | now apply priority_is_true].
  - intros [Hin Hp]. apply filter_In. split; [assumption |].
    now apply priority_is_true.
Qed.

Lemma priority_filter_all_or_matching_witness :
  count_label "prioridade" (columns sample_df) = 1 /\
  apply_priority_filter sample_df INVENTARIO_COMPLETO = Ok sample_df /\
  apply_priority_filter sample_df ESSENCIAL = Ok sample_df /\
  apply_priority_filter sample_df PREMIUM
  = Ok {| columns := columns sample_df; rows := [sample_row] |}.
Proof.
  assert (Hc : count_label "prioridade" (columns sample_df) = 1)
    by reflexivity.
  destruct (priority_filter_all_or_matching sample_df INVENTARIO_COMPLETO Hc)
    as [Hall _].
  destruct (priority_filter_all_or_matching sample_df ESSENCIAL Hc)
    as [Hnone _].
  destruct (priority_filter_all_or_matching sample_df PREMIUM Hc)
    as [_ [Hsome _]].
  split; [exact Hc |]. split; [| split].
  - apply Hall. left. reflexivity.
  - apply Hnone. right. intros r [<- | [<- | []]]; vm_compute; discriminate.
  - apply Hsome.
    + vm_compute. discriminate.
    + exists sample_row. split; [left; reflexivity | reflexivity].
Defined.

(** ** Column labels are fixed points *)

Module LabelFacts.

Import Label.

Ltac each_char c :=
  destruct c as [[] [] [] [] [] [] [] []]; vm_compute;
  try discriminate; intuition (try discriminate; try reflexivity).

Lemma out_char_facts c :
  is_out_char c = true ->
  nfkd_ascii_char c = String c EmptyString /\
  Ascii.eqb c (chr 10) = false /\
  isspace c = false /\
  lower_char c = c.
Proof. each_char c. Qed.

Lemma word_char_facts c :
  is_word_char c = true ->
  is_out_char c = true /\ is_label_char c = true /\ isspace c = false.
Proof. each_char c. Qed.

Lemma label_char_cases c :
  is_label_char c = true ->
  (isspace c = true /\ c = " "%char) \/
  (isspace c = false /\ is_word_char c = true).
Proof. each_char c. Qed.

Lemma append_nil_r s : s ++ "" = s.
Proof. induction s as [| c s IH]; simpl; [reflexivity | now rewrite IH]. Qed.

Lemma append_assoc s t u : (s ++ t) ++ u = s ++ (t ++ u).
Proof. induction s as [| c s IH]; simpl; [reflexivity | now rewrite IH]. Qed.

Lemma all_chars_app p s t :
  all_chars p (s ++ t) = all_chars p s && all_chars p t.
Proof.
  induction s as [| c s IH]; simpl; [reflexivity |].
  now rewrite IH, andb_assoc.
Qed.

Lemma all_chars_weaken (p q : ascii -> bool) s :
  (forall c, p c = true -> q c = true) ->
  all_chars p s = true -> all_chars q s = true.
Proof.
  intro Hpq. induction s as [| c s IH]; simpl; [reflexivity |].
  intro H. apply andb_true_iff in H. destruct H as [Hc Hs].
  now rewrite (Hpq c Hc), IH.
Qed.

Lemma all_chars_rev p w acc :
  all_chars p (rev_string acc w) = all_chars p w && all_chars p acc.
Proof.
  revert acc. induction w as [| c w IH]; intro acc; simpl; [reflexivity |].
  rewrite IH. simpl.
  destruct (p c), (all_chars p w), (all_chars p acc); reflexivity.
Qed.

Lemma rev_string_nonempty w acc :
  acc <> EmptyString \/ w <> EmptyString -> rev_string acc w <> EmptyString.
Proof.
  revert acc. induction w as [| c w IH]; intros acc H; simpl.
  - destruct H as [H | H]; [assumption | contradiction].
  - apply IH. left. discriminate.
Qed.

Lemma rev_string_twice w acc1 acc2 :
  rev_string acc2 (rev_string acc1 w) = rev_string (w ++ acc2) acc1.
Proof.
  revert acc1 acc2. induction w as [| c w IH]; intros acc1 acc2; simpl.
  - reflexivity.
  - now rewrite IH.
Qed.

Lemma rev_string_involutive w :
  rev_string EmptyString (rev_string EmptyString w) = w.
Proof.
  rewrite rev_string_twice. simpl. apply append_nil_r.
Qed.

(** *** Labels go through the first steps unchanged *)

Lemma nfkd_ascii_out s :
  all_chars is_out_char s = true -> nfkd_ascii s = s.
Proof.
  induction s as [| c s IH]; simpl; [reflexivity |].
  intro H. apply andb_true_iff in H. destruct H as [Hc Hs].
  destruct (out_char_facts c Hc) as [E _]. now rewrite E, IH.
Qed.

Lemma replace_newline_out s :
  all_chars is_out_char s = true -> replace_char (chr 10) " " s = s.
Proof.
  induction s as [| c s IH]; simpl; [reflexivity |].
  intro H. apply andb_true_iff in H. destruct H as [Hc Hs].
  destruct (out_char_facts c Hc) as [_ [E _]]. now rewrite E, IH.
Qed.

Lemma lstrip_out s : all_chars is_out_char s = true -> lstrip s = s.
Proof.
  destruct s as [| c s]; simpl; [reflexivity |].
  intro H. apply andb_true_iff in H. destruct H as [Hc _].
  destruct (out_char_facts c Hc) as [_ [_ [E _]]]. now rewrite E.
Qed.

Lemma rstrip_out s : all_chars is_out_char s = true -> rstrip s = s.
Proof.
  induction s as [| c s IH]; simpl; [reflexivity |].
  intro H. apply andb_true_iff in H. destruct H as [Hc Hs].
  destruct (out_char_facts c Hc) as [_ [_ [E _]]].
  rewrite (IH Hs), E. now destruct s.
Qed.

Lemma lower_out s : all_chars is_out_char s = true -> lower s = s.
Proof.
  induction s as [| c s IH]; simpl; [reflexivity |].
  intro H. apply andb_true_iff in H. destruct H as [Hc Hs].
  destruct (out_char_facts c Hc) as [_ [_ [_ E]]]. now rewrite E, IH.
Qed.

Lemma join_out W :
  Forall word_ok W -> all_chars is_out_char (join "_" W) = true.
Proof.
  induction 1 as [| w W [_ Hw] HW IH]; [reflexivity |].
  assert (Ho : all_chars is_out_char w = true).
  { apply all_chars_weaken with (2 := Hw). intros c Hc.
    now destruct (word_char_facts c Hc). }
  destruct W as [| w' W]; [exact Ho |].
  change (join "_" (w :: w' :: W)) with (w ++ "_" ++ join "_" (w' :: W)).
  rewrite !all_chars_app, Ho, IH. reflexivity.
Qed.

(** *** Underscores become the spaces that split the words again *)

Lemma sub_runs_word w x b :
  all_chars is_word_char w = true -> w <> EmptyString ->
  sub_runs b (w ++ x) = w ++ sub_runs false x.
Proof.
  revert b. induction w as [| c w IH]; intros b Hw Hne; [contradiction |].
  simpl in Hw. apply andb_true_iff in Hw. destruct Hw as [Hc Hw].
  destruct (word_char_facts c Hc) as [_ [Hl _]].
  simpl. rewrite Hl. f_equal.
  destruct w as [| c' w]; [reflexivity |].
  apply IH; [assumption | discriminate].
Qed.

Lemma sub_runs_join W b :
  Forall word_ok W -> sub_runs b (join "_" W) = join " " W.
Proof.
  intro H. revert b. induction H as [| w W [Hne Hw] HW IH]; intro b.
  - reflexivity.
  - destruct W as [| w' W].
    + simpl. rewrite <- (append_nil_r w) at 1.
      rewrite sub_runs_word by assumption. simpl. apply append_nil_r.
    + change (join "_" (w :: w' :: W)) with (w ++ "_" ++ join "_" (w' :: W)).
      change (join " " (w :: w' :: W)) with (w ++ " " ++ join " " (w' :: W)).
      rewrite sub_runs_word by assumption.
      change ("_" ++ join "_" (w' :: W))
        with (String "_" (join "_" (w' :: W))).
      cbn [sub_runs]. change (is_label_char "_") with false. cbn iota.
      now rewrite IH.
Qed.

Lemma split_acc_word w x acc :
  all_chars is_word_char w = true ->
  split_acc acc (w ++ x) = split_acc (rev_string acc w) x.
Proof.
  revert acc. induction w as [| c w IH]; intros acc Hw; [reflexivity |].
  simpl in Hw. apply andb_true_iff in Hw. destruct Hw as [Hc Hw].
  destruct (word_char_facts c Hc) as [_ [_ Hs]].
  simpl. rewrite Hs. now apply IH.
Qed.

Lemma flush_word w k :
  w <> EmptyString ->
  flush (rev_string EmptyString w) k = w :: k.
Proof.
  intro Hne. unfold flush.
  destruct (rev_string EmptyString w) eqn:E.
  - exfalso. apply (rev_string_nonempty w EmptyString); [now right | exact E].
  - rewrite <- E, rev_string_involutive. reflexivity.
Qed.

Lemma split_join W : Forall word_ok W -> split (join " " W) = W.
Proof.
  unfold split. induction 1 as [| w W [Hne Hw] HW IH]; [reflexivity |].
  destruct W as [| w' W].
  - simpl. rewrite <- (append_nil_r w) at 1.
    rewrite split_acc_word by assumption. simpl. now apply flush_word.
  - change (join " " (w :: w' :: W)) with (w ++ " " ++ join " " (w' :: W)).
    rewrite split_acc_word by assumption.
    change (" " ++ join " " (w' :: W)) with (String " " (join " " (w' :: W))).
    cbn [split_acc]. change (isspace " ") with true. cbn iota.
    rewrite IH. now apply flush_word.
Qed.

(** *** What [_normalize_column] returns *)

Lemma sub_runs_label b s : all_chars is_label_char (sub_runs b s) = true.
Proof.
  revert b. induction s as [| c s IH]; intro b; simpl; [reflexivity |].
  destruct (is_label_char c) eqn:E; simpl.
  - now rewrite E, IH.
  - destruct b; simpl; apply IH.
Qed.

Lemma flush_ok acc k :
  all_chars is_word_char acc = true -> Forall word_ok k ->
  Forall word_ok (flush acc k).
Proof.
  intros Ha Hk. unfold flush. destruct acc as [| c acc]; [assumption |].
  constructor; [| assumption]. split.
  - apply rev_string_nonempty. right. discriminate.
  - rewrite all_chars_rev, Ha. reflexivity.
Qed.

Lemma split_acc_ok s acc :
  all_chars is_label_char s = true -> all_chars is_word_char acc = true ->
  Forall word_ok (split_acc acc s).
Proof.
  revert acc. induction s as [| c s IH]; intros acc Hs Ha; simpl.
  - apply flush_ok; [assumption | constructor].
  - simpl in Hs. apply andb_true_iff in Hs. destruct Hs as [Hc Hs].
    destruct (label_char_cases c Hc) as [[E _] | [E Hw]]; rewrite E.
    + apply flush_ok; [assumption |]. now apply IH.
    + apply IH; [assumption |]. simpl. now rewrite Hw, Ha.
Qed.

End LabelFacts.

(** The labels [_normalize_column] returns: words of digits and
    lower-case letters, joined by underscores. *)
Lemma normalize_column_words column :
  exists W, Forall Label.word_ok W /\ _normalize_column column = join "_" W.
Proof.
  unfold _normalize_column. eexists. split; [| reflexivity].
  apply LabelFacts.split_acc_ok; [apply LabelFacts.sub_runs_label | reflexivity].
Qed.

Lemma normalize_column_fixed W :
  Forall Label.word_ok W -> _normalize_column (join "_" W) = join "_" W.
Proof.
  intro H. pose proof (LabelFacts.join_out W H) as Ho.
  unfold _normalize_column.
  rewrite (LabelFacts.nfkd_ascii_out _ Ho), (LabelFacts.replace_newline_out _ Ho).
  unfold strip.
  rewrite (LabelFacts.lstrip_out _ Ho), (LabelFacts.rstrip_out _ Ho), (LabelFacts.lower_out _ Ho).
  rewrite (LabelFacts.sub_runs_join _ _ H), (LabelFacts.split_join _ H). reflexivity.
Qed.

(** C10.  [_normalize_column] is idempotent: normalising a label it
    returned gives that label again.  What it returns are words of digits
    and lower-case letters joined by underscores, and these are its fixed
    points. *)
Theorem normalize_column_idempotent column :
  _normalize_column (_normalize_column column) = _normalize_column column /\
  exists W, Forall Label.word_ok W /\ _normalize_column column = join "_" W /\
            _normalize_column (join "_" W) = join "_" W.
Proof.
  destruct (normalize_column_words column) as [W [HW E]].
  pose proof (normalize_column_fixed W HW) as F.
  split; [now rewrite E |].
  exists W. repeat split; assumption.
Qed.

(** ** The indicators *)

(** On a frame without the two sheet labels, the depreciation total is
    the sum of a column of zeros. *)
Lemma sum_zeros n : exists q, Agg.sum (repeat (Num 0) n) = Ok q /\ (q == 0)%Q.
Proof.
  induction n as [| n [q [E Hq]]]; simpl.
  - exists 0%Q. split; reflexivity.
  - rewrite E. simpl. exists (0 + q)%Q. split; [reflexivity |].
    rewrite Hq. reflexivity.
Qed.

Lemma total_dep_without_sheet_labels df m :
  has_label DEP_UNITARIA_LABEL (columns df) = false ->
  has_label DEP_MERCADO_LABEL (columns df) = false ->
  compute_insights df = Ok m -> (total_dep m == 0)%Q.
Proof.
  intros H1 H2 H. unfold compute_insights, get in H. rewrite H1, H2 in H.
  cbn [or_else] in H.
  destruct (sum_zeros (len df)) as [q [E Hq]].
  cbn [bind] in H. rewrite E in H. cbn [bind] in H.
  repeat open_bind H. injection H as <-. exact Hq.
Qed.

(** No label of a normalised frame is a label of the sheet. *)
Lemma lookup_in {A : Type} k (m : list (string * A)) v :
  lookup k m = Some v -> In v (map snd m).
Proof.
  induction m as [| [k' v'] m IH]; simpl; [discriminate |].
  destruct (String.eqb k k'); intro H; [left; now inversion H | right; auto].
Qed.

Lemma relabelled_is_no_sheet_label L x :
  Label.all_chars Label.is_out_char L = false ->
  has_label L (map snd rename_map) = false ->
  renamed rename_map (_normalize_column x) <> L.
Proof.
  intros Hout Hmap E. unfold renamed in E.
  destruct (lookup (_normalize_column x) rename_map) as [y |] eqn:Ey.
  - apply lookup_in in Ey. subst y.
    apply has_label_true in Ey. congruence.
  - destruct (normalize_column_words x) as [W [HW EW]].
    rewrite EW in E. rewrite <- E, (LabelFacts.join_out W HW) in Hout.
    discriminate.
Qed.

Lemma has_label_relabel L raw :
  Label.all_chars Label.is_out_char L = false ->
  has_label L (map snd rename_map) = false ->
  has_label L (columns (relabel raw)) = false.
Proof.
  intros Hout Hmap. apply not_true_is_false. intro H.
  apply has_label_true in H. unfold relabel, rename in H. simpl in H.
  rewrite map_map in H. apply in_map_iff in H. destruct H as [x [E _]].
  exact (relabelled_is_no_sheet_label L x Hout Hmap E).
Qed.

Lemma has_label_setitem L df c s :
  String.eqb L c = false ->
  has_label L (columns (setitem df c s)) = has_label L (columns df).
Proof.
  intro Hne. unfold setitem. cbn [columns].
  destruct (has_label c (columns df)); [reflexivity |].
  unfold has_label. rewrite existsb_app. simpl. rewrite Hne.
  now rewrite !orb_false_r.
Qed.

Lemma has_label_loc_setitem L df mask c v :
  has_label L (columns (loc_setitem df mask c v)) = has_label L (columns df).
Proof. reflexivity. Qed.

Lemma has_label_load fos sof raw df L :
  Label.all_chars Label.is_out_char L = false ->
  has_label L (map snd rename_map) = false ->
  load_inventory fos sof raw = Ok df ->
  has_label L (columns df) = false.
Proof.
  intros Hout Hmap H.
  assert (Hnew : forall c, Label.all_chars Label.is_out_char c = true ->
                           String.eqb L c = false).
  { intros c Hc. apply String.eqb_neq. intros <-. congruence. }
  unfold load_inventory in H. fold (relabel raw) in H.
  repeat open_bind H. injection H as <-.
  repeat first
    [ rewrite has_label_setitem by (apply Hnew; reflexivity)
    | rewrite has_label_loc_setitem ].
  now apply has_label_relabel.
Qed.

(** On every normalised frame the depreciation total of
    [compute_insights] is zero, whatever the records hold. *)
Lemma total_dep_of_normalised fos sof raw df m :
  load_inventory fos sof raw = Ok df ->
  compute_insights df = Ok m -> (total_dep m == 0)%Q.
Proof.
  intros H. apply total_dep_without_sheet_labels.
  - apply (has_label_load fos sof raw df DEP_UNITARIA_LABEL);
      [reflexivity .. | exact H].
  - apply (has_label_load fos sof raw df DEP_MERCADO_LABEL);
      [reflexivity .. | exact H].
Qed.

(** C1.  The code on the two records of the sample, whose reference
    depreciations are 2145 and 10: [total_dep] is 0, not their sum 2155. *)
Theorem total_dep_on_the_sample :
  load_decimal sample_raw = Ok sample_df /\
  compute_insights sample_df = Ok sample_insights /\
  getitem sample_df "dep_referencia" = Ok [Num 2145; Num 10] /\
  Agg.sum [Num 2145; Num 10] = Ok 2155%Q /\
  total_dep sample_insights = 0%Q /\
  ~ (total_dep sample_insights == 2155)%Q.
Proof.
  repeat split; try (vm_compute; reflexivity).
  vm_compute. discriminate.
Qed.

(** C2.  The code on the empty frame: it returns, with [total_items] 0,
    the idle share 0 and the share of the top groups 0, and with NaN for
    the tracked share and for the low-cost share. *)
Theorem insights_of_the_empty_frame :
  load_decimal (sheet []) = Ok empty_df /\
  exists m,
    compute_insights empty_df = Ok m /\
    total_items m = 0 /\
    sem_uso_pct m = 0%Q /\
    top_centros_share m = 0%Q /\
    tracked_pct m = NaN /\
    low_cost_pct m = NaN.
Proof.
  split; [vm_compute; reflexivity |].
  eexists. split; [vm_compute; reflexivity |].
  repeat split.
Qed.

(** ** Examples *)

Example str_of_decimal_examples :
  map str_of_decimal [1023; 12.25; -0.5; 0]%Q
  = ["1023.0"; "12.25"; "-0.5"; "0.0"].
Proof. vm_compute. reflexivity. Qed.

Example float_of_decimal_examples :
  map float_of_decimal ["500"; " -12.50 "; "abc"]
  = [Some 500%Q; Some (-12.50)%Q; None].
Proof. vm_compute. reflexivity. Qed.

Example normalize_column_examples :
  map _normalize_column
    [ latin1 "Número de inventário"; latin1 "Depreciação anual unitária (R$)";
      latin1 "Depreciação anual_% (mercado)"; "  Tipo do  Item " ]
  = [ "numero_de_inventario"; "depreciacao_anual_unitaria_r";
      "depreciacao_anual_mercado"; "tipo_do_item" ].
Proof. vm_compute. reflexivity. Qed.

(** The sample, normalised: the MacBook is tracked, low-cost and
    [Premium controlado] at 2145; the mouse has neither owner nor code. *)
Example sample_normalised :
  map (fun r => map (row_get r)
                  ["usuario"; "numero_inventario"; "is_mac"; "is_low_cost";
                   "rastreados"; "dep_referencia"; "prioridade"])
      (rows sample_df)
  = [ [Str "Ana"; Str "1023.0"; Bln true; Bln true; Bln true; Num 2145;
       Str PREMIUM];
      [Str ""; Str SEM_INVENTARIO; Bln false; Bln true; Bln false; Num 10;
       Str NAO_ESSENCIAL] ].
Proof. vm_compute. reflexivity. Qed.

(** A licence for a Mac program: the licence amount wins. *)
Example license_wins_over_mac :
  (df <- load_decimal
           (sheet [ [Str "Final Cut para Mac"; Str "Em uso"; Str "TI";
                     Str "Bia"; Str "INV-4"; Str "Licenca"; Str "Software";
                     Num 1500; Num 20; Num 5; Num 300] ]) ;;
   Ok (map (fun r => map (row_get r)
                       ["is_mac"; "is_license"; "dep_referencia"; "prioridade"])
           (rows df)))
  = Ok [ [Bln true; Bln true; Num 1200; Str PREMIUM] ].
Proof. vm_compute. reflexivity. Qed.

(** Two cost centres: the ranking and the share of the first two. *)
Example sample_centros :
  centros sample_insights = [("TI", 500%Q); ("RH", 50%Q)] /\
  top_centros_names sample_insights = "TI, RH" /\
  (top_centros_share sample_insights == 100)%Q /\
  tracked_pct sample_insights = Fin (100 # 2).
Proof. repeat split. Qed.

(** On the sheet as it is read, before any renaming, the first operand
    of the [or] chain is a column, whose truth value is refused. *)
Example insights_of_the_raw_sheet :
  compute_insights sample_raw = Err ValueError.
Proof. vm_compute. reflexivity. Qed.

(** ** More on the priority filter *)

Lemma filter_twice {A : Type} (p : A -> bool) l :
  filter p (filter p l) = filter p l.
Proof.
  induction l as [| a l IH]; simpl; [reflexivity |].
  destruct (p a) eqn:E; simpl; [now rewrite E, IH | exact IH].
Qed.

Lemma existsb_filter {A : Type} (p : A -> bool) l :
  existsb p (filter p l) = existsb p l.
Proof.
  induction l as [| a l IH]; simpl; [reflexivity |].
  destruct (p a) eqn:E; simpl; [now rewrite E | exact IH].
Qed.

Lemma apply_priority_filter_cases df selection out :
  apply_priority_filter df selection = Ok out ->
  out = df \/
  (count_label "prioridade" (columns df) = 1 /\
   existsb (priority_is selection) (rows df) = true /\
   out = {| columns := columns df;
            rows := filter (priority_is selection) (rows df) |}).
Proof.
  unfold apply_priority_filter.
  destruct (String.eqb selection INVENTARIO_COMPLETO);
    [intro H; left; now inversion H |].
  intro H. open_bind H.
  assert (Hc : count_label "prioridade" (columns df) = 1).
  { unfold getitem in E.
    destruct (count_label "prioridade" (columns df)) as [| [| n]];
      [discriminate | reflexivity | discriminate]. }
  apply getitem_Ok in E. subst s. rewrite not_in_unique_rows in H.
  destruct (existsb (priority_is selection) (rows df)) eqn:Ex; simpl in H;
    [| left; now inversion H].
  right. unfold getitem in H. rewrite Hc in H. cbn [bind] in H.
  unfold Col.eq_str in H. rewrite map_map, select_map in H.
  repeat split; [assumption | now inversion H].
Qed.

(** X1.  The filter keeps the columns, returns the records of the frame
    or those of them that bear the selection, and never answers a frame
    that has records with one that has none. *)
Theorem priority_filter_view df selection out :
  apply_priority_filter df selection = Ok out ->
  columns out = columns df /\
  (rows out = rows df \/
   rows out = filter (priority_is selection) (rows df)) /\
  (rows df <> [] -> rows out <> []).
Proof.
  intro H.
  destruct (apply_priority_filter_cases _ _ _ H) as [-> | [_ [Ex ->]]].
  - repeat split; [now left | trivial].
  - cbn [columns rows]. repeat split; [now right |].
    intros _ E. rewrite <- existsb_filter, E in Ex. discriminate.
Qed.

Lemma priority_filter_view_witness :
  apply_priority_filter sample_df PREMIUM
  = Ok {| columns := columns sample_df; rows := [sample_row] |} /\
  columns {| columns := columns sample_df; rows := [sample_row] |}
  = columns sample_df /\
  (rows {| columns := columns sample_df; rows := [sample_row] |}
   = rows sample_df \/
   rows {| columns := columns sample_df; rows := [sample_row] |}
   = filter (priority_is PREMIUM) (rows sample_df)) /\
  (rows sample_df <> [] ->
   rows {| columns := columns sample_df; rows := [sample_row] |} <> []).
Proof.
  split; [vm_compute; reflexivity |].
  apply (priority_filter_view sample_df PREMIUM).
  vm_compute; reflexivity.
Defined.

(** X2.  Filtering a filtered frame by the same selection changes nothing. *)
Theorem priority_filter_idempotent df selection out :
  apply_priority_filter df selection = Ok out ->
  apply_priority_filter out selection = Ok out.
Proof.
  intro H.
  destruct (apply_priority_filter_cases _ _ _ H) as [-> | [Hc [Ex ->]]];
    [assumption |].
  rewrite apply_priority_filter_eq by exact Hc. cbn [columns rows].
  rewrite existsb_filter, Ex, filter_twice.
  now destruct (String.eqb selection INVENTARIO_COMPLETO).
Qed.

Lemma priority_filter_idempotent_witness :
  apply_priority_filter sample_df PREMIUM
  = Ok {| columns := columns sample_df; rows := [sample_row] |} /\
  apply_priority_filter {| columns := columns sample_df; rows := [sample_row] |}
    PREMIUM
  = Ok {| columns := columns sample_df; rows := [sample_row] |}.
Proof.
  split; [vm_compute; reflexivity |].
  apply (priority_filter_idempotent sample_df PREMIUM).
  vm_compute; reflexivity.
Defined.

(** X3.  The sentinel is answered before the frame is read; any other
    selection on a frame without a priority column raises [KeyError]. *)
Theorem priority_filter_without_column df selection :
  count_label "prioridade" (columns df) = 0 ->
  apply_priority_filter df INVENTARIO_COMPLETO = Ok df /\
  (selection <> INVENTARIO_COMPLETO ->
   apply_priority_filter df selection = Err (KeyError "prioridade")).
Proof.
  intro Hc. split; [reflexivity |].
  intro Hs. apply String.eqb_neq in Hs.
  unfold apply_priority_filter, getitem. now rewrite Hs, Hc.
Qed.

Lemma priority_filter_without_column_witness :
  count_label "prioridade" (columns sample_raw) = 0 /\
  apply_priority_filter sample_raw INVENTARIO_COMPLETO = Ok sample_raw /\
  (PREMIUM <> INVENTARIO_COMPLETO ->
   apply_priority_filter sample_raw PREMIUM = Err (KeyError "prioridade")).
Proof.
  split; [reflexivity |].
  apply (priority_filter_without_column sample_raw PREMIUM). reflexivity.
Defined.

(** ** More on the normaliser *)

Ltac open_row H :=
  unfold normalize_row in H; repeat open_bind H; injection H as <-.

Section NormaliserMore.

Variable float_of_str : string -> option Q.
Variable str_of_float : Q -> string.

Local Abbreviation load := (load_inventory float_of_str str_of_float).
Local Abbreviation nrow := (normalize_row float_of_str str_of_float).

Local Opaque step step_where row_set row_get.

Lemma nrow_untouched r0 r c :
  nrow r0 = Ok r -> has_label c written_labels = false ->
  row_get r c = row_get r0 c.
Proof.
  intros H Hc. unfold has_label, written_labels in Hc. cbn [existsb] in Hc.
  repeat (apply orb_false_iff in Hc; destruct Hc as [? Hc]).
  open_row H.
  repeat first
    [ rewrite row_get_set_other by assumption
    | rewrite row_get_step_other by assumption
    | rewrite row_get_where_other by assumption ].
  reflexivity.
Qed.

Local Transparent step step_where row_set row_get.

Lemma columns_setitem df c s :
  columns (setitem df c s) = add_column (columns df) c.
Proof. reflexivity. Qed.

Lemma columns_loc_setitem df mask c v :
  columns (loc_setitem df mask c v) = columns df.
Proof. reflexivity. Qed.

Lemma getitem_has_label df c s :
  getitem df c = Ok s -> has_label c (columns df) = true.
Proof.
  unfold getitem, count_label, has_label.
  induction (columns df) as [| k l IH]; simpl; [discriminate |].
  destruct (String.eqb c k); [reflexivity | exact IH].
Qed.

Lemma add_column_read df c s :
  getitem df c = Ok s -> add_column (columns df) c = columns df.
Proof.
  intro E. unfold add_column. now rewrite (getitem_has_label _ _ _ E).
Qed.

Lemma load_inventory_columns raw df :
  load raw = Ok df ->
  columns df = fold_left add_column derived_labels (columns (relabel raw)).
Proof.
  intro H. unfold load_inventory in H. fold (relabel raw) in H.
  repeat open_bind H. injection H as <-.
  repeat first
    [ match goal with
      | E : getitem ?d ?c = Ok _ |- context [columns (setitem ?d ?c ?s)] =>
          rewrite (columns_setitem d c s), (add_column_read d c _ E)
      end
    | rewrite columns_setitem
    | rewrite columns_loc_setitem ].
  reflexivity.
Qed.

End NormaliserMore.


(** X4.  [load_inventory] keeps the records of the sheet, one for one and in
    order, and every value it does not write: a column outside the
    thirteen labels it assigns reads in each record as it did in the
    sheet. *)
Theorem load_inventory_keeps_the_sheet fos sof raw df :
  load_inventory fos sof raw = Ok df ->
  length (rows df) = length (rows raw) /\
  Forall2
    (fun r0 r =>
       forall c, has_label c written_labels = false ->
                 row_get r c = row_get r0 c)
    (rows (relabel raw)) (rows df).
Proof.
  intro H. apply load_inventory_pairs in H. split.
  - apply Forall2_length in H. rewrite <- H.
    unfold relabel, rename. cbn [rows]. now rewrite !length_map.
  - apply Forall2_weaken with (2 := H). intros r0 r N c Hc.
    exact (nrow_untouched _ _ _ _ _ N Hc).
Qed.

Lemma load_inventory_keeps_the_sheet_witness :
  load_decimal sample_raw = Ok sample_df /\
  length (rows sample_df) = length (rows sample_raw) /\
  Forall2
    (fun r0 r =>
       forall c, has_label c written_labels = false ->
                 row_get r c = row_get r0 c)
    (rows (relabel sample_raw)) (rows sample_df).
Proof.
  split; [vm_compute; reflexivity |].
  apply (load_inventory_keeps_the_sheet float_of_decimal str_of_decimal).
  vm_compute; reflexivity.
Defined.



(** X6.  A record is low-cost exactly when its unit value is a number not
    above [LOW_COST_THRESHOLD], the bound included; a missing value is not
    low-cost. *)
Theorem low_cost_is_value_within_threshold fos sof raw df r :
  load_inventory fos sof raw = Ok df -> In r (rows df) ->
  exists low,
    row_get r "is_low_cost" = Bln low /\
    (low = true <->
     exists v, row_get r "valor_unitario" = Num v /\
               (v <= LOW_COST_THRESHOLD)%Q) /\
    LOW_COST_THRESHOLD = 800%Q.
Proof.
  intros H Hin.
  destruct (load_inventory_row _ _ _ _ _ H Hin) as [r0 [_ N]].
  rewrite (nrow_is_low_cost _ _ _ _ N).
  destruct (row_get r "valor_unitario") as [| t | v | b]; simpl.
  - exists false. repeat split; try discriminate. now intros [v [E _]].
  - exists false. repeat split; try discriminate. now intros [v [E _]].
  - exists (Qle_bool v LOW_COST_THRESHOLD). repeat split.
    + intro E. exists v. split; [reflexivity | now apply Qle_bool_iff].
    + intros [w [E Hw]]. inversion E. subst w. now apply Qle_bool_iff.
  - exists false. repeat split; try discriminate. now intros [v [E _]].
Qed.

Lemma low_cost_is_value_within_threshold_witness :
  load_decimal sample_raw = Ok sample_df /\ In sample_row (rows sample_df) /\
  exists low,
    row_get sample_row "is_low_cost" = Bln low /\
    (low = true <->
     exists v, row_get sample_row "valor_unitario" = Num v /\
               (v <= LOW_COST_THRESHOLD)%Q) /\
    LOW_COST_THRESHOLD = 800%Q.
Proof.
  split; [vm_compute; reflexivity |].
  split; [left; reflexivity |].
  apply (low_cost_is_value_within_threshold float_of_decimal str_of_decimal
           sample_raw sample_df sample_row).
  - vm_compute; reflexivity.
  - left; reflexivity.
Defined.





(** ** When [load_inventory] returns a frame *)

Lemma getitem_count df c s :
  getitem df c = Ok s -> count_label c (columns df) = 1.
Proof.
  unfold getitem. destruct (count_label c (columns df)) as [| [| n]];
    [discriminate | reflexivity | discriminate].
Qed.

Lemma getitem_of_count df c :
  count_label c (columns df) = 1 -> exists s, getitem df c = Ok s.
Proof.
  intro H. unfold getitem. rewrite H. eexists. reflexivity.
Qed.

Lemma count_label_app c l l' :
  count_label c (l ++ l')%list = count_label c l + count_label c l'.
Proof.
  unfold count_label. now rewrite filter_app, length_app.
Qed.

Lemma has_label_count c l :
  has_label c l = negb (Nat.eqb (count_label c l) 0).
Proof.
  unfold has_label, count_label.
  induction l as [| k l IH]; simpl; [reflexivity |].
  destruct (String.eqb c k); [reflexivity | exact IH].
Qed.

Lemma count_add_column_other c c' l :
  String.eqb c c' = false ->
  count_label c (add_column l c') = count_label c l.
Proof.
  intro Hne. unfold add_column. destruct (has_label c' l); [reflexivity |].
  rewrite count_label_app. unfold count_label at 2. simpl. rewrite Hne.
  simpl. lia.
Qed.

Lemma count_add_column_same c l :
  count_label c (add_column l c) = Nat.max 1 (count_label c l).
Proof.
  unfold add_column. rewrite has_label_count.
  destruct (count_label c l) as [| n] eqn:E; simpl.
  - rewrite count_label_app, E. unfold count_label. simpl.
    now rewrite String.eqb_refl.
  - rewrite E. reflexivity.
Qed.

Ltac count_on_sheet E :=
  repeat first
    [ rewrite columns_setitem in E
    | rewrite columns_loc_setitem in E
    | rewrite count_add_column_other in E by reflexivity
    | rewrite count_add_column_same in E ].

Section Success.

Variable float_of_str : string -> option Q.
Variable str_of_float : Q -> string.

Local Abbreviation load := (load_inventory float_of_str str_of_float).
Local Abbreviation nrow := (normalize_row float_of_str str_of_float).
Local Abbreviation tofloat := (to_float float_of_str).

Lemma load_inventory_needs_columns raw df :
  load raw = Ok df ->
  Forall (fun c => count_label c (columns (relabel raw)) = 1) read_labels /\
  Forall (fun c => count_label c (columns (relabel raw)) <= 1) flag_labels.
Proof.
  intro H. unfold load_inventory in H. fold (relabel raw) in H.
  repeat open_bind H. clear H.
  repeat match goal with
         | E : getitem _ _ = Ok _ |- _ => apply getitem_count in E
         | E : astype_float _ _ = Ok _ |- _ => clear E
         | E : mapM _ _ = Ok _ |- _ => clear E
         end.
  repeat match goal with
         | E : count_label _ (columns (setitem _ _ _)) = 1 |- _ =>
             count_on_sheet E
         | E : count_label _ (columns (loc_setitem _ _ _ _)) = 1 |- _ =>
             count_on_sheet E
         end.
  split; repeat (apply Forall_cons; [lia |]); apply Forall_nil.
Qed.

Local Opaque step step_where row_set row_get.

Lemma normalize_row_needs r0 r : nrow r0 = Ok r -> row_loads float_of_str r0.
Proof.
  intro H. unfold normalize_row in H. repeat open_bind H. clear H.
  unfold classify_priority in E1.
  autorewrite with rowdb in *.
  repeat split.
  - eexists. eassumption.
  - eexists. eassumption.
  - intros Hm Hl. rewrite Hm, Hl in E1. cbn [orb] in E1.
    destruct (row_get r0 "tipo_item") as [| t | q | b]; try discriminate E1.
    now exists t.
Qed.

Local Transparent step step_where row_set row_get.

End Success.

Lemma mapM_total_map {A B C : Type} (f : B -> result C) (g : A -> B) l :
  (forall a, In a l -> exists c, f (g a) = Ok c) ->
  exists l', mapM f (map g l) = Ok l'.
Proof.
  induction l as [| a l IH]; intro H; simpl.
  - eexists. reflexivity.
  - destruct (H a (or_introl eq_refl)) as [c Hc].
    destruct IH as [l' Hl]; [intros x Hx; apply H; now right |].
    rewrite Hc, Hl. eexists. reflexivity.
Qed.

Lemma mapM_total {A B : Type} (f : A -> result B) l :
  (forall a, In a l -> exists b, f a = Ok b) -> exists l', mapM f l = Ok l'.
Proof.
  intro H. rewrite <- (map_id l). now apply mapM_total_map.
Qed.

Ltac count_here :=
  repeat first
    [ rewrite columns_setitem
    | rewrite columns_loc_setitem
    | rewrite count_add_column_other by reflexivity
    | rewrite count_add_column_same ];
  lia.

Lemma count_label_In c l : count_label c l = 1 -> In c l.
Proof.
  intro H. apply has_label_true. rewrite has_label_count, H. reflexivity.
Qed.

(** X8.  [load_inventory] returns a frame only for a sheet that, once
    relabelled, has each of the seven columns it reads, amounts that convert
    to floats in every record, and text for the type of every record that is
    neither Mac nor licence. *)
Theorem load_inventory_needs fos sof raw df :
  load_inventory fos sof raw = Ok df ->
  Forall (fun c => In c (columns (relabel raw))) read_labels /\
  Forall (row_loads fos) (rows (relabel raw)).
Proof.
  intro H. destruct (load_inventory_needs_columns _ _ _ _ H) as [H1 _].
  split.
  - eapply Forall_impl; [| exact H1]. intros c Hc. now apply count_label_In.
  - apply load_inventory_pairs in H.
    induction H as [| r0 r l l' N _ IH]; constructor; [| exact IH].
    exact (normalize_row_needs _ _ _ _ N).
Qed.

Lemma load_inventory_needs_witness :
  load_decimal sample_raw = Ok sample_df /\
  Forall (fun c => In c (columns (relabel sample_raw))) read_labels /\
  Forall (row_loads float_of_decimal) (rows (relabel sample_raw)).
Proof.
  split; [vm_compute; reflexivity |].
  apply (load_inventory_needs float_of_decimal str_of_decimal
           sample_raw sample_df).
  vm_compute; reflexivity.
Defined.

(** ** The indicators, read back *)

Lemma as_mask_Ok s m : Agg.as_mask s = Ok m -> s = map Bln m.
Proof.
  unfold Agg.as_mask. intro H. apply mapM_Ok in H.
  induction H as [| v b s m Hv _ IH]; [reflexivity |].
  simpl. rewrite <- IH. destruct v; try discriminate Hv. now inversion Hv.
Qed.

Lemma as_mask_column c rs m :
  Agg.as_mask (column c rs) = Ok m ->
  m = map (flag_on c) rs /\ Forall (fun r => flag (row_get r c)) rs.
Proof.
  intro H. apply as_mask_Ok in H. unfold column in H.
  revert m H. induction rs as [| r rs IH]; intros m H.
  - destruct m; [split; [reflexivity | constructor] | discriminate].
  - destruct m as [| b m]; [discriminate |]. simpl in H. inversion H as [[Hb Hm]].
    destruct (IH m Hm) as [-> HF]. split.
    + simpl. f_equal. unfold flag_on. now rewrite Hb.
    + constructor; [now exists b | exact HF].
Qed.

Lemma count_true_map {A : Type} (p : A -> bool) l :
  Agg.count_true (map p l) = length (filter p l).
Proof.
  unfold Agg.count_true. induction l as [| a l IH]; simpl; [reflexivity |].
  destruct (p a); simpl; now rewrite IH.
Qed.

(** What [compute_insights] returned, field by field, in terms of the
    records. *)
Lemma compute_insights_inv df m :
  compute_insights df = Ok m ->
  total_items m = len df /\
  mac_count m = count_rows "is_mac" (rows df) /\
  license_count m = count_rows "is_license" (rows df) /\
  tracked_count m = count_rows "rastreados" (rows df) /\
  low_cost_count m = count_rows "is_low_cost" (rows df) /\
  tracked_pct m = fmul (Agg.mean (map (flag_on "rastreados") (rows df))) 100 /\
  low_cost_pct m = fmul (Agg.mean (map (flag_on "is_low_cost") (rows df))) 100 /\
  Forall (fun r => flag (row_get r "is_mac") /\ flag (row_get r "is_license") /\
                   flag (row_get r "is_low_cost") /\
                   flag (row_get r "rastreados")) (rows df) /\
  Agg.sum (select (column "is_mac" (rows df)) (column "dep_referencia" (rows df)))
  = Ok (mac_dep m) /\
  Agg.sum (select (column "is_license" (rows df))
             (column "dep_referencia" (rows df)))
  = Ok (license_dep m) /\
  Agg.sum (select (column "is_low_cost" (rows df))
             (column "dep_referencia" (rows df)))
  = Ok (low_cost_dep m) /\
  Agg.sum (column "valor_unitario" (rows df)) = Ok (patrimonio_total m) /\
  (exists g,
     Agg.groupby_sum (column "grupo" (rows df)) (column "valor_unitario" (rows df))
     = Ok g /\ centros m = Agg.sort_desc g).
Proof.
  intro H. unfold compute_insights in H. repeat open_bind H.
  injection H as <-. cbn.
  repeat match goal with
         | E : getitem _ _ = Ok _ |- _ => apply getitem_Ok in E
         end.
  subst. fold (column "is_mac" (rows df)) in *.
  fold (column "is_license" (rows df)) in *.
  fold (column "is_low_cost" (rows df)) in *.
  fold (column "rastreados" (rows df)) in *.
  fold (column "dep_referencia" (rows df)) in *.
  fold (column "valor_unitario" (rows df)) in *.
  fold (column "grupo" (rows df)) in *.
  repeat match goal with
         | E : Agg.as_mask (column _ _) = Ok _ |- _ =>
             apply as_mask_column in E; destruct E as [-> ?]
         end.
  unfold count_rows. rewrite !count_true_map.
  repeat split; try reflexivity; try assumption.
  - rewrite Forall_forall in *. intros r Hr. repeat split; auto.
  - eexists. split; [eassumption | reflexivity].
Qed.

Lemma length_filter_le {A : Type} (p : A -> bool) l :
  length (filter p l) <= length l.
Proof.
  induction l as [| a l IH]; simpl; [lia |]. destruct (p a); simpl; lia.
Qed.

Lemma share_bounds c n :
  c <= n -> 0 < n ->
  (0 <= Agg.of_nat c / Agg.of_nat n * 100 /\
   Agg.of_nat c / Agg.of_nat n * 100 <= 100)%Q.
Proof.
  intros Hc Hn. unfold Agg.of_nat.
  assert (Hpos : (0 < inject_Z (Z.of_nat n))%Q).
  { rewrite <- (Zlt_Qlt 0). lia. }
  assert (H0 : (0 <= inject_Z (Z.of_nat c) / inject_Z (Z.of_nat n))%Q).
  { apply Qle_shift_div_l; [exact Hpos |]. rewrite Qmult_0_l.
    rewrite <- (Zle_Qle 0). lia. }
  assert (H1 : (inject_Z (Z.of_nat c) / inject_Z (Z.of_nat n) <= 1)%Q).
  { apply Qle_shift_div_r; [exact Hpos |]. rewrite Qmult_1_l.
    rewrite <- Zle_Qle. lia. }
  split.
  - apply Qmult_le_0_compat; [exact H0 | discriminate].
  - setoid_replace 100%Q with (1 * 100)%Q at 2 by reflexivity.
    apply Qmult_le_compat_r; [exact H1 | discriminate].
Qed.

Lemma mean_of_flags {A : Type} (p : A -> bool) l :
  l <> [] ->
  Agg.mean (map p l)
  = Fin (Agg.of_nat (length (filter p l)) / Agg.of_nat (length l)).
Proof.
  intro H. destruct l as [| a l]; [contradiction |].
  unfold Agg.mean. cbn [map].
  change (p a :: map p l) with (map p (a :: l)).
  now rewrite count_true_map, length_map.
Qed.

(** X9.  The counts [compute_insights] returns are numbers of records, none
    above [total_items]; on a frame with records the tracked and low-cost
    shares are those counts over the number of records, times 100, and lie
    between 0 and 100; on a frame without records both are NaN. *)
Theorem insights_counts_and_shares df m :
  compute_insights df = Ok m ->
  total_items m = length (rows df) /\
  mac_count m <= total_items m /\ license_count m <= total_items m /\
  tracked_count m <= total_items m /\ low_cost_count m <= total_items m /\
  (rows df = [] -> tracked_pct m = NaN /\ low_cost_pct m = NaN) /\
  (rows df <> [] ->
   tracked_pct m
   = Fin (Agg.of_nat (tracked_count m) / Agg.of_nat (total_items m) * 100) /\
   low_cost_pct m
   = Fin (Agg.of_nat (low_cost_count m) / Agg.of_nat (total_items m) * 100) /\
   (0 <= Agg.of_nat (tracked_count m) / Agg.of_nat (total_items m) * 100
    <= 100)%Q /\
   (0 <= Agg.of_nat (low_cost_count m) / Agg.of_nat (total_items m) * 100
    <= 100)%Q).
Proof.
  intro H. apply compute_insights_inv in H.
  destruct H as (Ht & Hm & Hl & Htr & Hlo & Htp & Hlp & _).
  rewrite Ht, Hm, Hl, Htr, Hlo, Htp, Hlp. unfold len, count_rows.
  split; [reflexivity |].
  do 4 (split; [apply length_filter_le |]).
  split.
  - intro E. rewrite E. split; reflexivity.
  - intro E. rewrite !(mean_of_flags _ _ E).
    assert (Hn : 0 < length (rows df))
      by (destruct (rows df); [contradiction | simpl; lia]).
    split; [reflexivity |]. split; [reflexivity |].
    split; apply share_bounds; auto using length_filter_le.
Qed.

Lemma insights_counts_and_shares_witness :
  compute_insights sample_df = Ok sample_insights /\
  total_items sample_insights = length (rows sample_df) /\
  tracked_pct sample_insights
  = Fin (Agg.of_nat (tracked_count sample_insights)
         / Agg.of_nat (total_items sample_insights) * 100).
Proof.
  split; [vm_compute; reflexivity |].
  destruct (insights_counts_and_shares sample_df sample_insights)
    as (Ht & _ & _ & _ & _ & _ & Hs); [vm_compute; reflexivity |].
  split; [exact Ht |].
  destruct Hs as [Hs _]; [discriminate | exact Hs].
Defined.

(** ** Sums over flagged records *)

Lemma sum_select_flagged c (f : Row -> Q) rs q :
  (forall r, In r rs -> flag_on c r = true ->
             row_get r "dep_referencia" = Num (f r)) ->
  Agg.sum (select (column c rs) (column "dep_referencia" rs)) = Ok q ->
  (q == qsum (map f (filter (flag_on c) rs)))%Q.
Proof.
  revert q. induction rs as [| r rs IH]; intros q Hf H.
  - simpl in H. inversion H. reflexivity.
  - cbn [column map select] in H. fold (column c rs) in H.
    fold (column "dep_referencia" rs) in H. fold (flag_on c r) in H.
    cbn [filter]. destruct (flag_on c r) eqn:E.
    + cbn [Agg.sum] in H. open_bind H.
      rewrite (Hf r (or_introl eq_refl) E) in H. inversion H.
      cbn [map qsum fold_right]. fold (qsum (map f (filter (flag_on c) rs))).
      rewrite (IH s); [reflexivity | | assumption].
      intros x Hx. apply Hf. now right.
    + apply IH; [| assumption]. intros x Hx. apply Hf. now right.
Qed.

Lemma qsum_const (k : Q) {A : Type} (l : list A) :
  (qsum (map (fun _ => k) l) == k * Agg.of_nat (length l))%Q.
Proof.
  induction l as [| a l IH]; cbn [map qsum fold_right length].
  - unfold Agg.of_nat. simpl. ring.
  - fold (qsum (map (fun _ : A => k) l)). rewrite IH. unfold Agg.of_nat.
    rewrite Nat2Z.inj_succ, <- Z.add_1_r, inject_Z_plus. ring.
Qed.

Lemma qsum_premium rs :
  (forall r, In r rs -> flag_on "is_mac" r = true) ->
  (qsum (map premium_amount rs)
   == MAC_REFERENCE_DEPRECIATION
      * Agg.of_nat (length (filter (fun r => negb (flag_on "is_license" r)) rs))
      + LICENSE_REFERENCE_DEPRECIATION
        * Agg.of_nat (length (filter (flag_on "is_license") rs)))%Q.
Proof.
  intros _. induction rs as [| r rs IH]; cbn [map qsum fold_right filter].
  - unfold Agg.of_nat. simpl. ring.
  - fold (qsum (map premium_amount rs)). rewrite IH.
    unfold premium_amount at 1.
    destruct (flag_on "is_license" r); cbn [negb length]; unfold Agg.of_nat;
      rewrite Nat2Z.inj_succ, <- Z.add_1_r, inject_Z_plus; ring.
Qed.

Lemma filter_filter {A : Type} (p q : A -> bool) l :
  filter q (filter p l) = filter (fun a => p a && q a) l.
Proof.
  induction l as [| a l IH]; simpl; [reflexivity |].
  destruct (p a); simpl; [destruct (q a); now rewrite IH | exact IH].
Qed.

Lemma dep_referencia_of_flags fos sof raw df r :
  load_inventory fos sof raw = Ok df -> In r (rows df) ->
  row_get r "dep_referencia"
  = if flag_on "is_license" r then Num LICENSE_REFERENCE_DEPRECIATION
    else if flag_on "is_mac" r then Num MAC_REFERENCE_DEPRECIATION
    else row_get r "depreciacao_unitaria".
Proof.
  intros H Hin.
  destruct (load_inventory_row _ _ _ _ _ H Hin) as [r0 [_ N]].
  exact (nrow_dep_referencia _ _ _ _ N).
Qed.

(** ** The ranking of the groups *)










Lemma insert_desc_sorted e l :
  Sorted ranks_before l -> Sorted ranks_before (Agg.insert_desc e l).
Proof.
  induction 1 as [| e' l HS IH HR]; cbn [Agg.insert_desc].
  - repeat constructor.
  - destruct (Qle_bool (snd e') (snd e)) eqn:Hle.
    + constructor; [now constructor |].
      constructor. now apply Qle_bool_iff.
    + assert (Hlt : (snd e < snd e')%Q).
      { apply Qnot_le_lt. intro Hc. apply Qle_bool_iff in Hc. congruence. }
      constructor; [exact IH |].
      destruct HR as [| b l' Hb]; cbn [Agg.insert_desc].
      * constructor. now apply Qlt_le_weak.
      * destruct (Qle_bool (snd b) (snd e)); constructor;
          [now apply Qlt_le_weak | exact Hb].
Qed.

Lemma sort_desc_sorted l : Sorted ranks_before (Agg.sort_desc l).
Proof.
  induction l as [| e l IH]; [constructor |].
  unfold Agg.sort_desc. cbn [fold_right]. now apply insert_desc_sorted.
Qed.

Lemma compute_insights_reads df m :
  compute_insights df = Ok m ->
  Forall (fun c => count_label c (columns df) = 1) indicator_labels.
Proof.
  intro H. unfold compute_insights in H. repeat open_bind H. clear H.
  repeat match goal with
         | E : getitem _ _ = Ok _ |- _ => apply getitem_count in E
         end.
  unfold indicator_labels. repeat (apply Forall_cons; [assumption |]).
  apply Forall_nil.
Qed.

Lemma getitem_column df c :
  count_label c (columns df) = 1 -> getitem df c = Ok (column c (rows df)).
Proof. intro H. unfold getitem. now rewrite H. Qed.

(** X11.  The ranking [centros] runs from the largest amount down, and the
    bars of [centro_custo_chart] are its first six entries, none on a frame
    without records. *)
Theorem centro_custo_is_top_six df m :
  compute_insights df = Ok m ->
  Sorted ranks_before (centros m) /\
  centro_custo_data df = Ok (firstn 6 (centros m)) /\
  (rows df = [] -> centros m = []).
Proof.
  intro H. pose proof (compute_insights_reads _ _ H) as Hr.
  apply compute_insights_inv in H.
  destruct H as (_ & _ & _ & _ & _ & _ & _ & _ & _ & _ & _ & _ & g & Hg & Hc).
  unfold indicator_labels in Hr.
  repeat match goal with
         | H : Forall _ (_ :: _) |- _ =>
             apply Forall_cons_iff in H; destruct H as [? H]
         end.
  assert (Hn : rows df = [] -> centros m = []).
  { intro E. rewrite E in Hg. inversion Hg. subst g. exact Hc. }
  split; [rewrite Hc; apply sort_desc_sorted |].
  split; [| exact Hn].
  unfold centro_custo_data, empty, len.
  destruct (rows df) as [| r rs] eqn:Er.
  - cbn [length Nat.eqb orb]. now rewrite Hn.
  - assert (Hcol : Nat.eqb (length (columns df)) 0 = false).
    { destruct (columns df); [discriminate | reflexivity]. }
    rewrite Hcol. cbn [length Nat.eqb orb].
    rewrite !getitem_column by assumption. cbn [bind].
    rewrite Er, Hg. cbn [bind]. now rewrite Hc.
Qed.

Lemma centro_custo_is_top_six_witness :
  compute_insights sample_df = Ok sample_insights /\
  centro_custo_data sample_df = Ok (firstn 6 (centros sample_insights)).
Proof.
  split; [vm_compute; reflexivity |].
  apply (centro_custo_is_top_six sample_df sample_insights).
  vm_compute; reflexivity.
Defined.

(** ** The depreciation total and the shares of the reading *)

Lemma total_dep_needs_no_sheet_label df m :
  compute_insights df = Ok m ->
  has_label DEP_UNITARIA_LABEL (columns df) = false /\
  has_label DEP_MERCADO_LABEL (columns df) = false.
Proof.
  intro H. unfold compute_insights, get in H.
  destruct (has_label DEP_UNITARIA_LABEL (columns df)); [discriminate |].
  destruct (has_label DEP_MERCADO_LABEL (columns df)); [discriminate |].
  now split.
Qed.

Lemma total_dep_zero df m :
  compute_insights df = Ok m -> (total_dep m == 0)%Q /\ (avg_dep m == 0)%Q.
Proof.
  intro H. destruct (total_dep_needs_no_sheet_label _ _ H) as [H1 H2].
  pose proof (total_dep_without_sheet_labels _ _ H1 H2 H) as Ht.
  split; [exact Ht |].
  unfold compute_insights in H. repeat open_bind H. injection H as <-.
  cbn [avg_dep total_dep] in *. rewrite Ht. unfold Qdiv. ring.
Qed.

(** X12.  [compute_insights] answers only frames that bear none of the two
    sheet labels it asks for, raising [ValueError] on the others, and on the
    frames it answers the depreciation total and the average are zero. *)
Theorem total_dep_is_zero_or_raises df :
  (has_label DEP_UNITARIA_LABEL (columns df)
   || has_label DEP_MERCADO_LABEL (columns df) = true ->
   compute_insights df = Err ValueError) /\
  (forall m, compute_insights df = Ok m ->
     (total_dep m == 0)%Q /\ (avg_dep m == 0)%Q).
Proof.
  split; [| intros m H; exact (total_dep_zero _ _ H)].
  intro H. unfold compute_insights, get.
  destruct (has_label DEP_UNITARIA_LABEL (columns df)); [reflexivity |].
  cbn [orb] in H. rewrite H. reflexivity.
Qed.

Lemma share_of_zero part total : (total == 0)%Q -> share_of part total = 0%Q.
Proof.
  intro H. unfold share_of. apply Qeq_bool_iff in H. now rewrite H.
Qed.

(** X13.  Whatever frame and selection [render] works on, the two shares of
    [section_high_value] are 0: the depreciation total of the view is. *)
Theorem premium_shares_are_zero df selection global_kpis filtered_df view_kpis :
  render_data df selection = Ok (global_kpis, filtered_df, view_kpis) ->
  mac_share view_kpis = 0%Q /\ lic_share view_kpis = 0%Q /\
  mac_share global_kpis = 0%Q /\ lic_share global_kpis = 0%Q.
Proof.
  intro H. unfold render_data in H. repeat open_bind H.
  injection H as <- <- <-.
  repeat match goal with
         | A : compute_insights _ = Ok _ |- _ =>
             apply total_dep_zero in A; destruct A as [A _]
         end.
  unfold mac_share, lic_share. now rewrite !share_of_zero.
Qed.

Lemma premium_shares_are_zero_witness :
  render_data sample_df INVENTARIO_COMPLETO
  = Ok (sample_insights, sample_df, sample_insights) /\
  mac_share sample_insights = 0%Q.
Proof.
  split; [vm_compute; reflexivity |].
  eapply (premium_shares_are_zero sample_df INVENTARIO_COMPLETO).
  vm_compute; reflexivity.
Defined.

(** ** The slices of the tracking chart *)

Lemma sum_flags c rs :
  Forall (fun r => flag (row_get r c)) rs ->
  exists t, Agg.sum (column c rs) = Ok t /\ (t == Agg.of_nat (count_rows c rs))%Q.
Proof.
  induction 1 as [| r rs [b Hb] _ [t [Ht Hq]]].
  - exists 0%Q. split; reflexivity.
  - cbn [column map Agg.sum]. fold (column c rs). rewrite Ht, Hb. cbn [bind].
    eexists. split; [reflexivity |].
    rewrite Hq. unfold count_rows. cbn [filter]. unfold flag_on at 2.
    rewrite Hb.
    destruct b; cbn [truth length]; unfold Agg.of_nat;
      [rewrite Nat2Z.inj_succ, <- Z.add_1_r, inject_Z_plus |]; ring.
Qed.

Lemma py_int_of_nat t n : (t == Agg.of_nat n)%Q -> py_int t = Z.of_nat n.
Proof.
  intro H. unfold py_int.
  assert (Hle : Qle_bool 0 t = true).
  { apply Qle_bool_iff. rewrite H. unfold Agg.of_nat.
    change 0%Q with (inject_Z 0). rewrite <- Zle_Qle. lia. }
  rewrite Hle, H. apply Qfloor_Z.
Qed.

(** X14.  When the indicators can be computed, the pie of
    [tracking_ratio_chart] has the one slice [Sem dados] on a frame without
    records; otherwise its two slices are [tracked_count] and the other
    records, and add up to [total_items]. *)
Theorem tracking_slices_add_up df m :
  compute_insights df = Ok m ->
  (rows df = [] -> tracking_ratio_data df = Ok [("Sem dados", 1%Z)]) /\
  (rows df <> [] ->
   tracking_ratio_data df
   = Ok [ ("Rastreabilidade completa", Z.of_nat (tracked_count m));
          (PENDENCIAS, Z.of_nat (total_items m - tracked_count m)) ] /\
   tracked_count m + (total_items m - tracked_count m) = total_items m).
Proof.
  intro H. pose proof (compute_insights_reads _ _ H) as Hr.
  apply compute_insights_inv in H.
  destruct H as (Hn & _ & _ & Ht & _ & _ & _ & Hf & _).
  unfold indicator_labels in Hr.
  repeat match goal with
         | H : Forall _ (_ :: _) |- _ =>
             apply Forall_cons_iff in H; destruct H as [? H]
         end.
  assert (Hfl : Forall (fun r => flag (row_get r "rastreados")) (rows df)).
  { eapply Forall_impl; [| exact Hf]. cbv beta. tauto. }
  destruct (sum_flags _ _ Hfl) as [t [Hs Hq]].
  assert (Hle : tracked_count m <= total_items m).
  { rewrite Ht, Hn. apply length_filter_le. }
  unfold tracking_ratio_data. rewrite getitem_column by assumption.
  cbn [bind]. rewrite Hs. cbn [bind]. rewrite (py_int_of_nat _ _ Hq).
  rewrite <- Ht, <- Hn. unfold len in Hn.
  split.
  - intro E. rewrite Hn, E. reflexivity.
  - intro E. split; [| lia].
    destruct (total_items m) as [| k] eqn:Ek;
      [rewrite Hn in Ek; destruct (rows df); [contradiction | discriminate] |].
    cbn [Nat.eqb]. do 3 f_equal. f_equal. lia.
Qed.

Lemma tracking_slices_add_up_witness :
  compute_insights sample_df = Ok sample_insights /\
  rows sample_df <> [] /\
  tracking_ratio_data sample_df
  = Ok [ ("Rastreabilidade completa", Z.of_nat (tracked_count sample_insights));
         (PENDENCIAS,
          Z.of_nat (total_items sample_insights - tracked_count sample_insights)) ].
Proof.
  split; [vm_compute; reflexivity |].
  split; [discriminate |].
  apply (tracking_slices_add_up sample_df sample_insights);
    [vm_compute; reflexivity | discriminate].
Defined.

(** ** The bars of the premium chart *)





Lemma premium_sums fos sof raw df mac_d lic_d :
  load_inventory fos sof raw = Ok df ->
  Agg.sum (select (column "is_mac" (rows df))
             (column "dep_referencia" (rows df))) = Ok mac_d ->
  Agg.sum (select (column "is_license" (rows df))
             (column "dep_referencia" (rows df))) = Ok lic_d ->
  (mac_d == MAC_REFERENCE_DEPRECIATION
            * Agg.of_nat (length (filter mac_only (rows df)))
            + LICENSE_REFERENCE_DEPRECIATION
              * Agg.of_nat (length (filter mac_and_license (rows df))))%Q /\
  (lic_d == LICENSE_REFERENCE_DEPRECIATION
            * Agg.of_nat (length (filter (flag_on "is_license") (rows df))))%Q.
Proof.
  intros L Hmac Hlic. split.
  - assert (Hf : forall r, In r (rows df) -> flag_on "is_mac" r = true ->
                 row_get r "dep_referencia" = Num (premium_amount r)).
    { intros r Hr E. rewrite (dep_referencia_of_flags _ _ _ _ _ L Hr).
      unfold premium_amount. rewrite E.
      now destruct (flag_on "is_license" r). }
    rewrite (sum_select_flagged _ _ _ _ Hf Hmac).
    rewrite qsum_premium, !filter_filter; [reflexivity |].
    intros r Hr. apply filter_In in Hr. tauto.
  - assert (Hf : forall r, In r (rows df) -> flag_on "is_license" r = true ->
                 row_get r "dep_referencia"
                 = Num ((fun _ => LICENSE_REFERENCE_DEPRECIATION) r)).
    { intros r Hr E. rewrite (dep_referencia_of_flags _ _ _ _ _ L Hr).
      now rewrite E. }
    rewrite (sum_select_flagged _ _ _ _ Hf Hlic). apply qsum_const.
Qed.

(** X15.  On a normalised frame the licence depreciation of
    [compute_insights] is 1200 for each licence, and its Mac depreciation
    2145 for each Mac that is no licence plus 1200 for each Mac that is one:
    a record with both flags counts in both. *)
Theorem premium_depreciation_by_counts fos sof raw df m :
  load_inventory fos sof raw = Ok df ->
  compute_insights df = Ok m ->
  (license_dep m
   == LICENSE_REFERENCE_DEPRECIATION * Agg.of_nat (license_count m))%Q /\
  (mac_dep m
   == MAC_REFERENCE_DEPRECIATION
      * Agg.of_nat (length (filter mac_only (rows df)))
      + LICENSE_REFERENCE_DEPRECIATION
        * Agg.of_nat (length (filter mac_and_license (rows df))))%Q.
Proof.
  intros L H. apply compute_insights_inv in H.
  destruct H as (_ & _ & Hl & _ & _ & _ & _ & _ & Hmac & Hlic & _).
  destruct (premium_sums _ _ _ _ _ _ L Hmac Hlic) as [Hm Hq].
  split; [rewrite Hl; exact Hq | exact Hm].
Qed.

Lemma premium_depreciation_by_counts_witness :
  load_decimal sample_raw = Ok sample_df /\
  compute_insights sample_df = Ok sample_insights /\
  (license_dep sample_insights
   == LICENSE_REFERENCE_DEPRECIATION
      * Agg.of_nat (license_count sample_insights))%Q.
Proof.
  split; [vm_compute; reflexivity |].
  split; [vm_compute; reflexivity |].
  apply (premium_depreciation_by_counts float_of_decimal str_of_decimal
           sample_raw sample_df sample_insights);
    vm_compute; reflexivity.
Defined.



(** ** When the indicators and the page can be computed *)

Lemma sum_amounts s : Forall amount s -> exists t, Agg.sum s = Ok t.
Proof.
  induction 1 as [| v s Hv _ [t Ht]]; [eexists; reflexivity |].
  cbn [Agg.sum]. rewrite Ht. cbn [bind].
  destruct Hv as [-> | [q ->]]; eexists; reflexivity.
Qed.

Lemma select_Forall {A : Type} (P : A -> Prop) mask l :
  Forall P l -> Forall P (select mask l).
Proof.
  intro H. revert mask.
  induction H as [| a l Ha _ IH]; intro mask;
    [destruct mask; constructor |].
  destruct mask as [| m mask]; cbn [select]; [constructor |].
  destruct (truth m); [constructor; [exact Ha | apply IH] | apply IH].
Qed.

Lemma groupby_sum_returns keys vals :
  Forall group_key keys -> Forall amount vals ->
  exists g, Agg.groupby_sum keys vals = Ok g.
Proof.
  intro Hk. revert vals.
  induction Hk as [| k keys Hk _ IH]; intros vals Hv;
    [eexists; reflexivity |].
  destruct Hv as [| v vals Hv Hvs]; [eexists; reflexivity |].
  cbn [Agg.groupby_sum]. destruct (IH _ Hvs) as [g Hg]. rewrite Hg.
  cbn [bind]. destruct Hk as [-> | [t ->]]; [eexists; reflexivity |].
  cbn [Agg.sum bind].
  destruct Hv as [-> | [q ->]]; cbn [bind]; eexists; reflexivity.
Qed.

Lemma as_mask_returns s : Forall flag s -> exists m, Agg.as_mask s = Ok m.
Proof.
  intro H. unfold Agg.as_mask. apply mapM_total. intros v Hv.
  rewrite Forall_forall in H. destruct (H v Hv) as [b ->].
  eexists. reflexivity.
Qed.

Lemma ready_returns df : ready df -> exists m, compute_insights df = Ok m.
Proof.
  intros (H1 & H2 & Hc & Hr). unfold indicator_labels in Hc.
  repeat match goal with
         | H : Forall _ (_ :: _) |- _ =>
             apply Forall_cons_iff in H; destruct H as [? H]
         end.
  assert (Hval : Forall amount (column "valor_unitario" (rows df))).
  { apply Forall_map. eapply Forall_impl; [| exact Hr].
    unfold row_ready. tauto. }
  assert (Hdep : Forall amount (column "dep_referencia" (rows df))).
  { apply Forall_map. eapply Forall_impl; [| exact Hr].
    unfold row_ready. tauto. }
  assert (Hmac : Forall flag (column "is_mac" (rows df))).
  { apply Forall_map. eapply Forall_impl; [| exact Hr].
    unfold row_ready. tauto. }
  assert (Hlic : Forall flag (column "is_license" (rows df))).
  { apply Forall_map. eapply Forall_impl; [| exact Hr].
    unfold row_ready. tauto. }
  assert (Hlow : Forall flag (column "is_low_cost" (rows df))).
  { apply Forall_map. eapply Forall_impl; [| exact Hr].
    unfold row_ready. tauto. }
  assert (Htr : Forall flag (column "rastreados" (rows df))).
  { apply Forall_map. eapply Forall_impl; [| exact Hr].
    unfold row_ready. tauto. }
  assert (Hgr : Forall group_key (column "grupo" (rows df))).
  { apply Forall_map. eapply Forall_impl; [| exact Hr].
    unfold row_ready. tauto. }
  unfold compute_insights, get. rewrite H1, H2. cbn [or_else].
  destruct (sum_zeros (len df)) as [q [E _]]. cbn [bind]. rewrite E.
  cbn [bind].
  rewrite !getitem_column by assumption. cbn [bind].
  destruct (sum_amounts _ Hval) as [pt Ept]. rewrite Ept. cbn [bind].
  destruct (groupby_sum_returns _ _ Hgr Hval) as [g Eg]. rewrite Eg.
  cbn [bind].
  destruct (sum_amounts _ (select_Forall _ (column "is_mac" (rows df)) _ Hdep))
    as [md Emd].
  rewrite Emd. cbn [bind].
  destruct (sum_amounts _
              (select_Forall _ (column "is_license" (rows df)) _ Hdep))
    as [ld Eld].
  rewrite Eld. cbn [bind].
  destruct (as_mask_returns _ Hmac) as [bm Ebm]. rewrite Ebm. cbn [bind].
  destruct (as_mask_returns _ Hlic) as [bl Ebl]. rewrite Ebl. cbn [bind].
  destruct (as_mask_returns _ Htr) as [bt Ebt]. rewrite Ebt. cbn [bind].
  destruct (sum_amounts _
              (select_Forall _ (column "is_low_cost" (rows df)) _ Hdep))
    as [wd Ewd].
  rewrite Ewd. cbn [bind].
  destruct (as_mask_returns _ Hlow) as [bw Ebw]. rewrite Ebw. cbn [bind].
  eexists. reflexivity.
Qed.

Lemma ready_filter df selection out :
  ready df -> apply_priority_filter df selection = Ok out -> ready out.
Proof.
  intros Hr H.
  destruct (apply_priority_filter_cases _ _ _ H) as [-> | [_ [_ ->]]];
    [exact Hr |].
  destruct Hr as (H1 & H2 & Hc & Hrows).
  unfold ready. cbn [columns rows].
  split; [exact H1 |]. split; [exact H2 |]. split; [exact Hc |].
  rewrite Forall_forall in *. intros r Hin. apply filter_In in Hin.
  apply Hrows. tauto.
Qed.

Lemma to_float_amount fos v w : to_float fos v = Ok w -> amount w.
Proof.
  destruct v as [| t | q | b]; cbn [to_float].
  - intro H. injection H as <-. now left.
  - destruct (fos t); [| discriminate]. intro H. injection H as <-.
    right. eexists. reflexivity.
  - intro H. injection H as <-. right. eexists. reflexivity.
  - intro H. injection H as <-. right. eexists. reflexivity.
Qed.

Lemma count_of_fold_same c l :
  count_label c l <= 1 -> In c derived_labels ->
  count_label c (fold_left add_column derived_labels l) = 1.
Proof.
  intros Hc Hin. unfold derived_labels in *. cbn [fold_left].
  cbn [In] in Hin.
  repeat (destruct Hin as [<- | Hin]; [count_here |]). contradiction.
Qed.

Lemma count_of_fold_other c l :
  has_label c derived_labels = false ->
  count_label c (fold_left add_column derived_labels l) = count_label c l.
Proof.
  intro Hc. unfold has_label, derived_labels in *. cbn [existsb] in Hc.
  repeat (apply orb_false_iff in Hc; destruct Hc as [? Hc]).
  cbn [fold_left]. now rewrite !count_add_column_other by assumption.
Qed.

Lemma loaded_columns fos sof raw df :
  load_inventory fos sof raw = Ok df -> sheet_ready raw ->
  Forall (fun c => count_label c (columns df) = 1)
    ("prioridade" :: indicator_labels).
Proof.
  intros L (Hone & Hmost & _).
  destruct (load_inventory_needs_columns _ _ _ _ L) as [Hread Hflag].
  unfold read_labels in Hread. unfold flag_labels in Hflag.
  rewrite (load_inventory_columns _ _ _ _ L).
  repeat match goal with
         | H : Forall _ (_ :: _) |- _ =>
             apply Forall_cons_iff in H; destruct H as [? H]
         end.
  unfold indicator_labels.
  repeat (apply Forall_cons;
          [first [ apply count_of_fold_same;
                   [first [assumption | lia] | cbn; tauto]
                 | rewrite count_of_fold_other by reflexivity; assumption ]
          |]).
  apply Forall_nil.
Qed.

Lemma loaded_rows fos sof raw df :
  load_inventory fos sof raw = Ok df ->
  Forall (fun r => group_key (row_get r "grupo")) (rows (relabel raw)) ->
  Forall row_ready (rows df).
Proof.
  intros L Hg. rewrite Forall_forall in *. intros r Hin.
  destruct (load_inventory_row _ _ _ _ _ L Hin) as [r0 [Hin0 N]].
  assert (Hd : amount (row_get r "depreciacao_unitaria")).
  { exact (to_float_amount _ _ _ (nrow_depreciacao_unitaria _ _ _ _ N)). }
  unfold row_ready.
  split; [exact (to_float_amount _ _ _ (nrow_valor_unitario _ _ _ _ N)) |].
  split.
  { rewrite (nrow_dep_referencia _ _ _ _ N).
    destruct (truth (row_get r "is_license"));
      [right; eexists; reflexivity |].
    destruct (truth (row_get r "is_mac"));
      [right; eexists; reflexivity | exact Hd]. }
  split; [rewrite (nrow_is_mac _ _ _ _ N); apply contains_cell_bool |].
  split; [rewrite (nrow_is_license _ _ _ _ N); apply contains_cell_bool |].
  split.
  { rewrite (nrow_is_low_cost _ _ _ _ N).
    destruct (row_get r "valor_unitario"); eexists; reflexivity. }
  split; [rewrite (nrow_rastreados _ _ _ _ N); eexists; reflexivity |].
  rewrite (nrow_untouched _ _ _ _ "grupo" N eq_refl). now apply Hg.
Qed.

Lemma loaded_ready fos sof raw df :
  load_inventory fos sof raw = Ok df -> sheet_ready raw -> ready df.
Proof.
  intros L S. pose proof (loaded_columns _ _ _ _ L S) as Hc.
  apply Forall_cons_iff in Hc. destruct Hc as [_ Hc].
  destruct S as (_ & _ & Hg).
  split.
  { apply (has_label_load fos sof raw df DEP_UNITARIA_LABEL);
      [reflexivity .. | exact L]. }
  split.
  { apply (has_label_load fos sof raw df DEP_MERCADO_LABEL);
      [reflexivity .. | exact L]. }
  split; [exact Hc | exact (loaded_rows _ _ _ _ L Hg)].
Qed.

(** X17.  [compute_insights] returns on every frame that has its eight
    columns once, none of the two sheet labels, and amounts, flags and
    group keys in its records; the filter keeps such a frame one. *)
Theorem indicators_of_a_ready_frame df selection out :
  ready df ->
  apply_priority_filter df selection = Ok out ->
  (exists m, compute_insights df = Ok m) /\
  (exists m, compute_insights out = Ok m).
Proof.
  intros Hr H. split; [exact (ready_returns _ Hr) |].
  exact (ready_returns _ (ready_filter _ _ _ Hr H)).
Qed.


Lemma sample_sheet_ready : sheet_ready sample_raw.
Proof.
  split; [| split].
  - repeat (apply Forall_cons; [vm_compute; reflexivity |]). apply Forall_nil.
  - repeat (apply Forall_cons; [vm_compute; lia |]). apply Forall_nil.
  - rewrite Forall_forall. intros r Hin. vm_compute in Hin.
    repeat (destruct Hin as [<- | Hin];
            [right; eexists; vm_compute; reflexivity |]).
    contradiction.
Qed.

Lemma sample_ready : ready sample_df.
Proof.
  apply (loaded_ready float_of_decimal str_of_decimal sample_raw sample_df);
    [vm_compute; reflexivity | exact sample_sheet_ready].
Qed.

Lemma indicators_of_a_ready_frame_witness :
  ready sample_df /\
  apply_priority_filter sample_df PREMIUM
  = Ok {| columns := columns sample_df; rows := [sample_row] |} /\
  (exists m, compute_insights sample_df = Ok m) /\
  (exists m,
     compute_insights {| columns := columns sample_df; rows := [sample_row] |}
     = Ok m).
Proof.
  split; [exact sample_ready |].
  split; [vm_compute; reflexivity |].
  apply (indicators_of_a_ready_frame sample_df PREMIUM);
    [exact sample_ready | vm_compute; reflexivity].
Defined.


(** ** Relabelling twice *)

Lemma normalize_column_twice column :
  _normalize_column (_normalize_column column) = _normalize_column column.
Proof.
  destruct (normalize_column_words column) as [W [HW E]].
  now rewrite E, (normalize_column_fixed W HW).
Qed.

Lemma relabel_label_twice l :
  renamed rename_map (_normalize_column (renamed rename_map (_normalize_column l)))
  = renamed rename_map (_normalize_column l).
Proof.
  destruct (lookup (_normalize_column l) rename_map) as [t |] eqn:E.
  - assert (R : renamed rename_map (_normalize_column l) = t)
      by (unfold renamed; now rewrite E).
    rewrite R. apply lookup_in in E. unfold rename_map in E.
    cbn [map snd In] in E.
    repeat (destruct E as [<- | E]; [vm_compute; reflexivity |]).
    contradiction.
  - assert (R : renamed rename_map (_normalize_column l) = _normalize_column l)
      by (unfold renamed; now rewrite E).
    rewrite R, normalize_column_twice. exact R.
Qed.

(** X19.  The two [rename] calls of [load_inventory], done again on their own
    result, change nothing: every alias leads to a label that both calls
    leave alone.  Values and the number of records are never touched. *)
Theorem relabel_twice raw :
  relabel (relabel raw) = relabel raw /\
  length (rows (relabel raw)) = length (rows raw) /\
  Forall2 (fun r0 r => map snd r = map snd r0) (rows raw) (rows (relabel raw)).
Proof.
  unfold relabel, rename. cbn [columns rows]. split; [| split].
  - f_equal.
    + rewrite !map_map. apply map_ext. intro l. apply relabel_label_twice.
    + rewrite !map_map. apply map_ext. intro r. rewrite !map_map.
      apply map_ext. intros [k v]. cbn [fst snd].
      now rewrite relabel_label_twice.
  - now rewrite !length_map.
  - rewrite map_map. induction (rows raw) as [| r rs IH]; constructor;
      [| exact IH].
    rewrite !map_map. apply map_ext. now intros [k v].
Qed.

(** ** Idle records and the leading groups *)

Lemma count_str_le x s : Agg.count_str x s <= length s.
Proof. unfold Agg.count_str. apply length_filter_le. Qed.

(** X20.  The idle count is a number of records; the idle share is that
    count over the number of records, times 100, between 0 and 100, and 0
    (not NaN) on a frame without records, where the divisor is 1. *)
Theorem idle_share_of_records df m :
  compute_insights df = Ok m ->
  sem_uso_count m <= total_items m /\
  (0 <= sem_uso_pct m /\ sem_uso_pct m <= 100)%Q /\
  (rows df = [] -> (sem_uso_pct m == 0)%Q) /\
  (rows df <> [] ->
   sem_uso_pct m
   = (Agg.of_nat (sem_uso_count m) / Agg.of_nat (total_items m) * 100)%Q).
Proof.
  intro H. unfold compute_insights in H. repeat open_bind H.
  injection H as <-. cbn [sem_uso_count sem_uso_pct total_items].
  match goal with
  | E : getitem df "status" = Ok ?s |- _ =>
      apply getitem_Ok in E;
      pose proof (count_str_le "Sem Uso" s) as Hle;
      assert (Hlen : length s = len df)
        by (rewrite E; unfold len; apply length_map);
      generalize dependent (Agg.count_str "Sem Uso" s)
  end.
  intros c Hc. rewrite Hlen in Hc. clear Hlen. unfold len in *.
  split; [exact Hc |].
  destruct (rows df) as [| r rs] eqn:Er; cbn [length nat_or_1] in *.
  - assert (c = 0) by lia. subst c.
    split; [apply share_bounds; lia |].
    split; [intros _; reflexivity | now intros []].
  - split; [apply share_bounds; lia |].
    split; [discriminate | reflexivity].
Qed.

Lemma idle_share_of_records_witness :
  compute_insights sample_df = Ok sample_insights /\
  sem_uso_count sample_insights <= total_items sample_insights /\
  (0 <= sem_uso_pct sample_insights /\ sem_uso_pct sample_insights <= 100)%Q.
Proof.
  split; [vm_compute; reflexivity |].
  destruct (idle_share_of_records sample_df sample_insights) as (H1 & H2 & _);
    [vm_compute; reflexivity |].
  split; [exact H1 | exact H2].
Defined.

Lemma firstn_short {A : Type} n (l : list A) : length l <= n -> firstn n l = l.
Proof.
  revert l. induction n as [| n IH]; intros [| a l] H; simpl in *;
    try reflexivity; [lia |]. now rewrite IH by lia.
Qed.

(** X21.  With no group, [top_centros_share] is 0 and [top_centros_names]
    empty; with one or two groups the share is 100 when their amounts do not
    cancel, and 0 when they do. *)
Theorem top_share_of_few_groups df m :
  compute_insights df = Ok m ->
  (centros m = [] ->
   top_centros_share m = 0%Q /\ top_centros_names m = ""%string) /\
  (centros m <> [] -> length (centros m) <= 2 ->
   (~ Agg.total (centros m) == 0 -> top_centros_share m == 100)%Q /\
   (Agg.total (centros m) == 0 -> top_centros_share m == 0)%Q).
Proof.
  intro H. unfold compute_insights in H. repeat open_bind H.
  injection H as <-.
  cbn [centros top_centros_share top_centros_names].
  match goal with
  | |- context [Agg.sort_desc ?g] => generalize (Agg.sort_desc g)
  end.
  intro l. split.
  - intros ->. split; reflexivity.
  - intros Hne Hlen.
    assert (Hl : exists e l', l = e :: l' /\ firstn 2 l = l).
    { destruct l as [| e l']; [contradiction |]. exists e, l'.
      split; [reflexivity | now apply firstn_short]. }
    destruct Hl as [e [l' [El Hf]]].
    change (match l with
            | [] => []
            | a :: l0 => a :: match l0 with [] => [] | a0 :: _ => [a0] end
            end) with (firstn 2 l).
    rewrite Hf, El. cbv beta iota. unfold q_or_1. split.
    + intro Hz. destruct (Qeq_bool (Agg.total (e :: l')) 0) eqn:Eq;
        [apply Qeq_bool_iff in Eq; contradiction |].
      field. exact Hz.
    + intro Hz. apply Qeq_bool_iff in Hz as Eq. rewrite Eq, Hz.
      reflexivity.
Qed.

Lemma top_share_of_few_groups_witness :
  compute_insights sample_df = Ok sample_insights /\
  centros sample_insights <> [] /\ length (centros sample_insights) <= 2 /\
  (~ Agg.total (centros sample_insights) == 0)%Q /\
  (top_centros_share sample_insights == 100)%Q.
Proof.
  split; [vm_compute; reflexivity |].
  split; [discriminate |].
  split; [vm_compute; lia |].
  split; [discriminate |].
  destruct (top_share_of_few_groups sample_df sample_insights) as [_ H];
    [vm_compute; reflexivity |].
  destruct H as [H _]; [discriminate | vm_compute; lia |].
  apply H. discriminate.
Defined.
